(** * crypto_tracker: a shallow embedding of [crypto_tracker.py]

    The development follows the layout of the Python module:

    - [PyExn]    exception classes and the result type of fallible code;
    - [PyStr]    Python [str] as a sequence of Unicode code points, with
                 the string methods the module calls;
    - [PyFloat]  Python [float] as IEEE-754 binary64 ([spec_float]) and the
                 built-in [float(str)] conversion;
    - [Helpers]  [parse_money] and [parse_percent];
    - [Frame]    the records of one cycle, the data-frame views
                 ([filter_top_gainers], [filter_top_losers],
                 [filter_by_price]) over an abstract [sort_values];
    - [World]    the observable world of the process: the file system,
                 the clock and the trace of driver commands and console
                 output;
    - [Sink]     [save_to_csv];
    - [Scraper]  [scrape_top_n] against one rendered page;
    - [Loop]     [build_driver] and [main].

    The program comes first.  It is followed by the vocabulary of the
    statements (readings of the specification's words, the promise of the
    data-frame library about [sort_values], the traces a run is compared
    with) and by sample data; the lemmas and the statements about the
    program come last.

    Modelling choices, as far as the statements depend on them:
    - a call that can raise returns a [result]; [try]/[except] tests the
      class of the exception against the class hierarchy of Python and
      Selenium;
    - what lies outside the process answers through records of outcomes:
      a [page] for one call of [scrape_top_n], a [session] for the set-up
      and tear-down of the browser, a [cycle] for one iteration of the
      loop; every command sent out is appended to the [trace] of the
      [world];
    - [while True] runs against a finite list of iterations; a run that
      uses them up is [Running];
    - [sort_values] is a parameter, constrained by what the library
      documents; errors of the operating system while the CSV file is
      written are not modelled. *)

From Stdlib Require Import ZArith NArith List String Ascii Bool Lia.
From Stdlib Require Import Permutation Sorted.
From Stdlib Require Import Floats.SpecFloat.
From stdpp Require Import base option list sorting gmap.
Import ListNotations.

Set Default Proof Using "Type".

(* ===================================================================== *)
(** * Exceptions *)
(* ===================================================================== *)

Module PyExn.

(** The exception classes that can reach the module's handlers. *)
Inductive exn_class :=
| BaseException
| Exception
| KeyboardInterrupt
| SystemExit
| ValueError
| IndexError
| OSError
| WebDriverException
| TimeoutException
| StaleElementReferenceException.

Definition exn_class_eqb (c d : exn_class) : bool :=
  match c, d with
  | BaseException, BaseException | Exception, Exception
  | KeyboardInterrupt, KeyboardInterrupt | SystemExit, SystemExit
  | ValueError, ValueError | IndexError, IndexError | OSError, OSError
  | WebDriverException, WebDriverException
  | TimeoutException, TimeoutException
  | StaleElementReferenceException, StaleElementReferenceException => true
  | _, _ => false
  end.

(** Method resolution order: the class itself, then its bases. *)
Definition mro (c : exn_class) : list exn_class :=
  match c with
  | BaseException => [BaseException]
  | Exception => [Exception; BaseException]
  | KeyboardInterrupt => [KeyboardInterrupt; BaseException]
  | SystemExit => [SystemExit; BaseException]
  | ValueError => [ValueError; Exception; BaseException]
  | IndexError => [IndexError; Exception; BaseException]
  | OSError => [OSError; Exception; BaseException]
  | WebDriverException => [WebDriverException; Exception; BaseException]
  | TimeoutException =>
      [TimeoutException; WebDriverException; Exception; BaseException]
  | StaleElementReferenceException =>
      [StaleElementReferenceException; WebDriverException; Exception;
       BaseException]
  end.

Definition issubclass (c d : exn_class) : bool :=
  existsb (exn_class_eqb d) (mro c).

(** An exception object: its class and its message. *)
Record exn := mk_exn { exn_cls : exn_class; exn_msg : list N }.

(** [isinstance e c]: what [except c] tests. *)
Definition isinstance (e : exn) (c : exn_class) : bool :=
  issubclass (exn_cls e) c.

(** Outcome of a call: a value, or a raised exception. *)
Inductive result (A : Type) :=
| Ok (a : A)
| Raise (e : exn).
Arguments Ok {A} a.
Arguments Raise {A} e.

Definition returned {A} (r : result A) : bool :=
  match r with Ok _ => true | Raise _ => false end.

(** [try: r  except c: h]. *)
Definition try_except {A} (r : result A) (c : exn_class)
    (h : exn -> result A) : result A :=
  match r with
  | Ok a => Ok a
  | Raise e => if isinstance e c then h e else Raise e
  end.

Definition bind {A B} (r : result A) (k : A -> result B) : result B :=
  match r with
  | Ok a => k a
  | Raise e => Raise e
  end.

End PyExn.
Export PyExn.

(* ===================================================================== *)
(** * Strings *)
(* ===================================================================== *)

Module PyStr.

(** A Python [str] is a sequence of Unicode code points. *)
Abbreviation str := (list N).

(** ** Literals: UTF-8 decoding of a source literal *)

Fixpoint utf8_decode (pending : nat) (acc : N) (bs : list N) : str :=
  match bs with
  | [] => []
  | b :: bs' =>
      match pending with
      | O =>
          if (b <? 0x80)%N then b :: utf8_decode 0 0%N bs'
          else if (b <? 0xE0)%N then utf8_decode 1 (N.land b 0x1F) bs'
          else if (b <? 0xF0)%N then utf8_decode 2 (N.land b 0x0F) bs'
          else utf8_decode 3 (N.land b 0x07) bs'
      | S k =>
          let acc' := (acc * 64 + N.land b 0x3F)%N in
          match k with
          | O => acc' :: utf8_decode 0 0%N bs'
          | S _ => utf8_decode k acc' bs'
          end
      end
  end.

Definition py (s : string) : str :=
  utf8_decode 0 0%N (map N_of_ascii (list_ascii_of_string s)).

(** ** Character classes *)

(** [str.isspace] on one code point ([Py_UNICODE_ISSPACE]). *)
Definition isspace (c : N) : bool :=
  ((9 <=? c) && (c <=? 13) || (28 <=? c) && (c <=? 32)
   || (c =? 0x85) || (c =? 0xA0) || (c =? 0x1680)
   || (0x2000 <=? c) && (c <=? 0x200A)
   || (c =? 0x2028) || (c =? 0x2029) || (c =? 0x202F)
   || (c =? 0x205F) || (c =? 0x3000))%N.

Definition is_digit (c : N) : bool := ((48 <=? c) && (c <=? 57))%N.

(** ** Methods *)

Fixpoint str_eqb (s t : str) : bool :=
  match s, t with
  | [], [] => true
  | c :: s', d :: t' => (c =? d)%N && str_eqb s' t'
  | _, _ => false
  end.

Fixpoint startswith (s p : str) : bool :=
  match p, s with
  | [], _ => true
  | d :: p', c :: s' => (c =? d)%N && startswith s' p'
  | _ :: _, [] => false
  end.

(** [s.endswith(suffix)]. *)
Definition endswith (s suffix : str) : bool :=
  let n := length s in
  let m := length suffix in
  (m <=? n)%nat && str_eqb (skipn (n - m) s) suffix.

(** Left-to-right scan of [s.replace(old, new)] for a non-empty [old];
    [skip] counts the characters of the occurrence just replaced that
    are still to be passed over. *)
Fixpoint replace_scan (old new : str) (skip : nat) (s : str) : str :=
  match s with
  | [] => []
  | c :: s' =>
      match skip with
      | S k => replace_scan old new k s'
      | O =>
          if startswith s old
          then new ++ replace_scan old new (length old - 1) s'
          else c :: replace_scan old new 0 s'
      end
  end.

(** [s.replace(old, new)]. *)
Definition replace (s old new : str) : str :=
  match old with
  | [] => new ++ flat_map (fun c => c :: new) s
  | _ :: _ => replace_scan old new 0 s
  end.

Fixpoint lstrip (s : str) : str :=
  match s with
  | [] => []
  | c :: s' => if isspace c then lstrip s' else s
  end.

Definition rstrip (s : str) : str := rev (lstrip (rev s)).

(** [s.strip()]. *)
Definition strip (s : str) : str := rstrip (lstrip s).

(** [s[:stop]] for any integer [stop]. *)
Definition slice_to {A} (l : list A) (stop : Z) : list A :=
  if (stop <? 0)%Z
  then firstn (length l - Z.to_nat (- stop)) l
  else firstn (Z.to_nat stop) l.

(** [s.split(sep)] for a one-character separator. *)
Fixpoint split_char (sep : N) (s : str) : list str :=
  match s with
  | [] => [[]]
  | c :: s' =>
      if (c =? sep)%N then [] :: split_char sep s'
      else match split_char sep s' with
           | w :: ws => (c :: w) :: ws
           | [] => [[c]]
           end
  end.

(** Truth value of a string: [not text] holds of the empty string. *)
Definition truthy (s : str) : bool :=
  match s with [] => false | _ :: _ => true end.

End PyStr.
Export PyStr.

(* ===================================================================== *)
(** * Floats *)
(* ===================================================================== *)

Module PyFloat.

(** A Python [float] is an IEEE-754 binary64 number. *)
Abbreviation float := spec_float.

Definition prec : Z := 53.
Definition emax : Z := 1024.

(** Correctly rounded (to nearest, ties to even) value of [m * 2^e]. *)
Definition of_binary (m e : Z) : float := binary_normalize prec emax m e false.

(** [float(n)] for an integer [n]. *)
Definition of_Z (n : Z) : float := of_binary n 0.

(** Correctly rounded value of [(-1)^neg * m * 10^e]. *)
Definition of_decimal (neg : bool) (m : N) (e : Z) : float :=
  match m with
  | N0 => S754_zero neg
  | Npos p =>
      if (0 <=? e)%Z
      then binary_round prec emax neg (p * Z.to_pos (10 ^ e))%positive 0
      else SFdiv prec emax (S754_finite neg p 0)
             (S754_finite false (Z.to_pos (10 ^ (- e))) 0)
  end.

(** [x * n] for a float [x] and an integer [n]. *)
Definition mul_int (x : float) (n : Z) : float :=
  SFmul prec emax x (of_Z n).

Definition isnan (x : float) : bool :=
  match x with S754_nan => true | _ => false end.

(** [x <= y]. *)
Definition leb (x y : float) : bool := SFleb x y.

(** Truth value of a float: zero (of either sign) is false. *)
Definition truthy (x : float) : bool :=
  match x with S754_zero _ => false | _ => true end.

(** ** [float(str)] *)

(** Zero digits of the decimal-digit blocks of the Unicode character
    database (version 14.0); each block holds the ten digits in order. *)
Definition decimal_zeros : list N :=
  [0x30; 0x660; 0x6F0; 0x7C0; 0x966; 0x9E6; 0xA66; 0xAE6; 0xB66; 0xBE6;
   0xC66; 0xCE6; 0xD66; 0xDE6; 0xE50; 0xED0; 0xF20; 0x1040; 0x1090;
   0x17E0; 0x1810; 0x1946; 0x19D0; 0x1A80; 0x1A90; 0x1B50; 0x1BB0;
   0x1C40; 0x1C50; 0xA620; 0xA8D0; 0xA900; 0xA9D0; 0xA9F0; 0xAA50;
   0xABF0; 0xFF10; 0x104A0; 0x10D30; 0x11066; 0x110F0; 0x11136; 0x111D0;
   0x112F0; 0x11450; 0x114D0; 0x11650; 0x116C0; 0x11730; 0x118E0;
   0x11950; 0x11C50; 0x11D50; 0x11DA0; 0x16A60; 0x16AC0; 0x16B50;
   0x1D7CE; 0x1D7D8; 0x1D7E2; 0x1D7EC; 0x1D7F6; 0x1E140; 0x1E2F0;
   0x1E950; 0x1FBF0]%N.

(** [Py_UNICODE_TODECIMAL]. *)
Definition todecimal (c : N) : option N :=
  match List.find (fun z => (z <=? c) && (c <? z + 10))%N decimal_zeros with
  | Some z => Some (c - z)%N
  | None => None
  end.

(** [_PyUnicode_TransformDecimalAndSpaceToASCII], one code point:
    spaces become [' '], decimal digits their ASCII digit, any other
    non-ASCII character ['?']. *)
Definition to_ascii (c : N) : N :=
  if (c <? 128)%N then c
  else if PyStr.isspace c then 32%N
  else match todecimal c with
       | Some d => (48 + d)%N
       | None => 63%N
       end.

(** C [isspace] in the "C" locale ([Py_ISSPACE]). *)
Definition c_isspace (c : N) : bool :=
  ((c =? 32) || (9 <=? c) && (c <=? 13))%N.

Fixpoint c_lstrip (s : str) : str :=
  match s with
  | [] => []
  | c :: s' => if c_isspace c then c_lstrip s' else s
  end.

Definition c_strip (s : str) : str := rev (c_lstrip (rev (c_lstrip s))).

(** An underscore is allowed only between two digits. *)
Fixpoint underscores_ok (prev : N) (s : str) : bool :=
  match s with
  | [] => negb (prev =? 95)%N
  | c :: s' =>
      (if (c =? 95)%N then is_digit prev
       else negb (prev =? 95)%N || is_digit c)
      && underscores_ok c s'
  end.

Definition drop_underscores (s : str) : str :=
  List.filter (fun c => negb (c =? 95)%N) s.

(** Longest prefix of ASCII digits (as digit values) and the rest. *)
Fixpoint span_digits (s : str) : list N * str :=
  match s with
  | [] => ([], [])
  | c :: s' =>
      if is_digit c
      then let '(ds, r) := span_digits s' in ((c - 48)%N :: ds, r)
      else ([], s)
  end.

Definition digits_value (ds : list N) : N :=
  fold_left (fun a d => (10 * a + d)%N) ds 0%N.

Definition parse_sign (s : str) : bool * str :=
  match s with
  | 43%N :: r => (false, r)
  | 45%N :: r => (true, r)
  | _ => (false, s)
  end.

Definition lower (c : N) : N :=
  if ((65 <=? c) && (c <=? 90))%N then (c + 32)%N else c.

Definition is_exp_mark (c : N) : bool := ((c =? 101) || (c =? 69))%N.

(** The numeral grammar of [float]: an optional sign, then
    [inf], [infinity] or [nan] in any letter case, or decimal digits
    with an optional point and an optional exponent; the whole string
    has to match. *)
Definition parse_numeral (s : str) : option float :=
  let '(neg, s1) := parse_sign s in
  let low := map lower s1 in
  if str_eqb low (py "inf") || str_eqb low (py "infinity")
  then Some (S754_infinity neg)
  else if str_eqb low (py "nan") then Some S754_nan
  else
    let '(ip, r1) := span_digits s1 in
    let '(fp, r2) :=
      match r1 with
      | 46%N :: r => span_digits r
      | _ => ([], r1)
      end in
    let mant := digits_value (ip ++ fp) in
    let scale := (- Z.of_nat (length fp))%Z in
    match ip ++ fp with
    | [] => None
    | _ :: _ =>
        match r2 with
        | [] => Some (of_decimal neg mant scale)
        | c :: r3 =>
            if is_exp_mark c then
              let '(eneg, r4) := parse_sign r3 in
              let '(ed, r5) := span_digits r4 in
              match ed, r5 with
              | _ :: _, [] =>
                  let ev := Z.of_N (digits_value ed) in
                  Some (of_decimal neg mant
                          ((if eneg then - ev else ev) + scale)%Z)
              | _, _ => None
              end
            else None
        end
    end.

(** [float(text)] for a string argument: returns the float or raises
    [ValueError]. *)
Definition float_of_str (text : str) : result float :=
  let s := c_strip (map to_ascii text) in
  if underscores_ok 0%N s then
    match parse_numeral (drop_underscores s) with
    | Some x => Ok x
    | None => Raise (mk_exn ValueError text)
    end
  else Raise (mk_exn ValueError text).

End PyFloat.
Export PyFloat.

(* ===================================================================== *)
(** * Helpers: [parse_money], [parse_percent] *)
(* ===================================================================== *)

Module Helpers.

Definition chr_comma : str := py ",".
Definition chr_dollar : str := py "$".
Definition chr_emdash : str := [0x2014%N].
Definition chr_percent : str := py "%".
Definition chr_plus : str := py "+".

(** [parse_money(text)]: convert ['$64,000'] or ['$1.2B'] into a float. *)
Definition parse_money (text : str) : result (option float) :=
  if negb (PyStr.truthy text) then Ok None
  else
    let text :=
      strip (replace (replace (replace text chr_comma []) chr_dollar [])
               chr_emdash []) in
    let multiplier := 1%Z in
    let '(multiplier, text) :=
      if endswith text (py "K") then (1000%Z, slice_to text (-1))
      else if endswith text (py "M") then (1000000%Z, slice_to text (-1))
      else if endswith text (py "B") then (1000000000%Z, slice_to text (-1))
      else if endswith text (py "T")
           then (1000000000000%Z, slice_to text (-1))
      else (multiplier, text) in
    try_except
      (bind (float_of_str text) (fun x => Ok (Some (mul_int x multiplier))))
      ValueError
      (fun _ => Ok None).

(** [parse_percent(text)]: convert ['+3.25%'] into a float. *)
Definition parse_percent (text : str) : result (option float) :=
  if negb (PyStr.truthy text) then Ok None
  else
    let text :=
      strip (replace (replace (replace text chr_percent []) chr_plus [])
               chr_comma []) in
    try_except
      (bind (float_of_str text) (fun x => Ok (Some x)))
      ValueError
      (fun _ => Ok None).

End Helpers.
Export Helpers.

(* ===================================================================== *)
(** * Records and data-frame views *)
(* ===================================================================== *)

Module Frame.

(** One scraped row: the dictionary [rec] built by [scrape_top_n]. *)
Record record := mk_record {
  rank : str;
  name : str;
  symbol : str;
  price : option float;
  change_24h : option float;
  market_cap : option float
}.

(** [pd.DataFrame(records)]: the rows, in list order. *)
Abbreviation DataFrame := (list record).

(** A cell is null when it is [None] or NaN ([pd.isna]). *)
Definition isna (v : option float) : bool :=
  match v with
  | None => true
  | Some x => isnan x
  end.

Definition notna (v : option float) : bool := negb (isna v).

(** [df.head(n)], that is [df.iloc[:n]]. *)
Definition head (df : DataFrame) (n : Z) : DataFrame := slice_to df n.

(** [df.empty]. *)
Definition empty (df : DataFrame) : bool :=
  match df with [] => true | _ :: _ => false end.

(** [df.sort_values(by=col, ascending=asc)] belongs to the data-frame
    library; the views are written against this interface. *)
Class Sorter :=
  sort_values : (record -> option float) -> bool -> DataFrame -> DataFrame.

(** Element-wise [column >= x] and [column <= x]; a comparison with a
    null cell is false. *)
Definition cell_ge (v : option float) (x : float) : bool :=
  match v with
  | Some p => PyFloat.leb x p
  | None => false
  end.

Definition cell_le (v : option float) (x : float) : bool :=
  match v with
  | Some p => PyFloat.leb p x
  | None => false
  end.

Section Views.
Context {sorter : Sorter}.

Definition filter_top_gainers (df : DataFrame) (top_k : Z) : DataFrame :=
  head (sort_values change_24h false df) top_k.

Definition filter_top_losers (df : DataFrame) (top_k : Z) : DataFrame :=
  head (sort_values change_24h true df) top_k.

End Views.

Definition filter_by_price (df : DataFrame)
    (min_price max_price : option float) : DataFrame :=
  let df :=
    match min_price with
    | Some lo => List.filter (fun r => cell_ge (price r) lo) df
    | None => df
    end in
  let df :=
    match max_price with
    | Some hi => List.filter (fun r => cell_le (price r) hi) df
    | None => df
    end in
  df.

End Frame.
Export Frame.

(* ===================================================================== *)
(** * The world of the process *)
(* ===================================================================== *)

Module World.

(** ** Console output: one constructor per [print] call of the module *)
Inductive message :=
| MsgBrowserReady
| MsgTimeout                       (* "Timeout: Table not loaded. ..." *)
| MsgRowFailed (i : nat) (e : exn) (* "Failed to parse row {i}: {e}" *)
| MsgNoData                        (* "No data found this cycle." *)
| MsgSnapshotTitle                 (* "Latest Market Snapshot:" *)
| MsgPriceTitle                    (* "Coins Matching Price Filter:" *)
| MsgNoPriceMatch                  (* "No coins matched the price filter." *)
| MsgGainersTitle (k : Z)          (* "Top {k} Gainers:" *)
| MsgLosersTitle (k : Z)           (* "Top {k} Losers:" *)
| MsgTable (columns : list str) (df : DataFrame)
| MsgScrapeError (e : exn)         (* "Error during scrape: {e}" *)
| MsgWaiting (interval : Z)        (* "Waiting {interval} seconds ..." *)
| MsgStopped                       (* "Auto-tracking stopped by user." *)
| MsgWebDriverError (e : exn)      (* "WebDriver error: {e}" *)
| MsgBrowserClosed.                (* "Browser closed." *)

(** The readiness conditions [scrape_top_n] waits for. *)
Inductive condition :=
| RowPresent       (* presence_of_element_located("table tbody tr") *)
| PriceHasDollar.  (* text_to_be_present_in_element(... td:nth-child(4), "$") *)

(** ** Commands sent to the outside, in program order *)
Inductive event :=
| Print (m : message)
| InstallDriver                               (* ChromeDriverManager().install() *)
| StartChrome (arguments : list str)          (* webdriver.Chrome(...) *)
| Get (url : str)                             (* driver.get(url) *)
| Refresh                                     (* driver.refresh() *)
| ExecuteScript (js : str)                    (* driver.execute_script(js) *)
| WaitUntil (c : condition) (timeout : Z)     (* wait.until(c) *)
| SaveScreenshot (file : str)                 (* driver.save_screenshot(file) *)
| FindRows                                    (* driver.find_elements(...) *)
| FindCells (i : nat)                         (* row.find_elements(td) *)
| Sleep (seconds : Z)                         (* time.sleep(seconds) *)
| Quit.                                       (* driver.quit() *)

(** ** The CSV log *)

(** [datetime.now(timezone.utc).isoformat()]: the ISO-8601 rendering of
    a UTC instant. *)
Inductive isostamp := IsoUtc (instant : N).

Inductive csv_line :=
| Header (columns : list str)
| Row (r : record) (timestamp_utc : isostamp).

(** ** State *)
Record world := mk_world {
  fs : gmap str (list csv_line);   (* path |-> lines of the file *)
  clock : nat -> N;                (* successive readings of the clock *)
  reads : nat;                     (* readings taken so far *)
  trace : list event               (* commands issued so far *)
}.

(** ** Effectful computations: state passing with exceptions *)
Definition M (A : Type) : Type := world -> world * result A.

Definition ret {A} (a : A) : M A := fun w => (w, Ok a).

Definition raise {A} (e : exn) : M A := fun w => (w, Raise e).

Definition mbind {A B} (m : M A) (k : A -> M B) : M B :=
  fun w =>
    match m w with
    | (w', Ok a) => k a w'
    | (w', Raise e) => (w', Raise e)
    end.

(** A pure fallible call. *)
Definition lift {A} (r : result A) : M A := fun w => (w, r).

(** [try: m  except c as e: h e]. *)
Definition try_catch {A} (m : M A) (c : exn_class) (h : exn -> M A) : M A :=
  fun w =>
    match m w with
    | (w', Ok a) => (w', Ok a)
    | (w', Raise e) => if isinstance e c then h e w' else (w', Raise e)
    end.

Definition emit (e : event) : M unit :=
  fun w => (mk_world (fs w) (clock w) (reads w) (trace w ++ [e]), Ok tt).

(** A command to the outside together with the outcome the outside
    gives it. *)
Definition call {A} (e : event) (r : result A) : M A :=
  mbind (emit e) (fun _ => lift r).

Definition print (m : message) : M unit := emit (Print m).

(** [datetime.now(timezone.utc).isoformat()]. *)
Definition now_utc_iso : M isostamp :=
  fun w => (mk_world (fs w) (clock w) (S (reads w)) (trace w),
            Ok (IsoUtc (clock w (reads w)))).

(** [os.path.exists(path)]. *)
Definition path_exists (path : str) : M bool :=
  fun w => (w, Ok (bool_decide (is_Some (fs w !! path)))).

(** Writing [lines] to [path] opened in append mode: the file is created
    when absent. *)
Definition append_lines (path : str) (lines : list csv_line) : M unit :=
  fun w =>
    (mk_world (<[path := default [] (fs w !! path) ++ lines]> (fs w))
              (clock w) (reads w) (trace w),
     Ok tt).

End World.
Export World.

Declare Scope py_scope.
Delimit Scope py_scope with py.
Notation "x <- m ;; k" := (mbind m (fun x => k))
  (at level 100, m at next level, right associativity) : py_scope.
Notation "m ;;; k" := (mbind m (fun _ => k))
  (at level 100, right associativity) : py_scope.
Open Scope py_scope.

(* ===================================================================== *)
(** * Persistence: [save_to_csv] *)
(* ===================================================================== *)

Module Sink.

(** Columns of the frame built from the records, then the stamp. *)
Definition record_columns : list str :=
  [py "rank"; py "name"; py "symbol"; py "price"; py "change_24h";
   py "market_cap"].

Definition csv_columns : list str := record_columns ++ [py "timestamp_utc"].

(** [df.to_csv(path, mode="a", header=header, index=False)] for a frame
    whose column [timestamp_utc] holds [stamp] in every row. *)
Definition to_csv (df : DataFrame) (stamp : isostamp) (path : str)
    (header : bool) : M unit :=
  append_lines path
    ((if header then [Header csv_columns] else [])
     ++ map (fun r => Row r stamp) df).

(** [save_to_csv(records, output_file)]. *)
Definition save_to_csv (records : list record) (output_file : str) : M unit :=
  match records with
  | [] => ret tt
  | _ :: _ =>
      let df := records in
      stamp <- now_utc_iso ;;
      ex <- path_exists output_file ;;
      let header := negb ex in
      to_csv df stamp output_file header
  end.

End Sink.
Export Sink.

(* ===================================================================== *)
(** * Scraping: [scrape_top_n] *)
(* ===================================================================== *)

Module Scraper.

(** What one table row answers: the outcome of [find_elements(td)], each
    cell with the outcome of reading its [.text]. *)
Record row_dom := mk_row { row_cells : result (list (result str)) }.

(** What the rendered page answers during one call of [scrape_top_n]. *)
Record page := mk_page {
  refresh_r : result unit;
  script_r : result unit;
  wait_rows_r : result unit;
  wait_price_r : result unit;
  screenshot_r : result bool;
  rows_r : result (list row_dom)
}.

(** [cols[i].text]. *)
Definition cell_text (cols : list (result str)) (i : nat) : M str :=
  match nth_error cols i with
  | Some t => lift t
  | None => raise (mk_exn IndexError (py "list index out of range"))
  end.

(** [raw_name[i]]. *)
Definition item (l : list str) (i : nat) : M str :=
  match nth_error l i with
  | Some t => ret t
  | None => raise (mk_exn IndexError (py "list index out of range"))
  end.

(** Body of the [try] inside the loop over rows; [None] stands for
    [continue], [Some rec] for the record to append. *)
Definition extract_row (i : nat) (row : row_dom) : M (option record) :=
  cols <- call (FindCells i) (row_cells row) ;;
  if (length cols <? 8)%nat then ret None
  else
    t2 <- cell_text cols 2 ;;
    let raw_name := split_char 10%N (strip t2) in
    name <- item raw_name 0 ;;
    symbol <- (if (1 <? length raw_name)%nat then item raw_name 1
               else ret []) ;;
    t3 <- cell_text cols 3 ;;
    let price := strip t3 in
    t4 <- cell_text cols 4 ;;
    let change_24h := strip t4 in
    t7 <- cell_text cols 7 ;;
    let market_cap := strip t7 in
    t1 <- cell_text cols 1 ;;
    p <- lift (parse_money price) ;;
    c <- lift (parse_percent change_24h) ;;
    m <- lift (parse_money market_cap) ;;
    ret (Some (mk_record (strip t1) name symbol p c m)).

(** [for i, row in enumerate(rows): try: ... except Exception as e: ...],
    from index [i] on; [records] is the list built so far. *)
Fixpoint for_rows (i : nat) (rows : list row_dom) (records : list record)
    : M (list record) :=
  match rows with
  | [] => ret records
  | row :: rows' =>
      records' <-
        try_catch
          (o <- extract_row i row ;;
           ret (match o with
                | Some rec => records ++ [rec]
                | None => records
                end))
          Exception
          (fun e => print (MsgRowFailed i e) ;;; ret records) ;;
      for_rows (S i) rows' records'
  end.

Definition scroll_js : str := py "window.scrollTo(0, 600);".
Definition screenshot_file : str := py "debug_timeout.png".

(** [scrape_top_n(driver, n, timeout)]. *)
Definition scrape_top_n (pg : page) (n : Z) (timeout : Z) : M (list record) :=
  early <-
    try_catch
      (call Refresh (refresh_r pg) ;;;
       call (ExecuteScript scroll_js) (script_r pg) ;;;
       call (WaitUntil RowPresent timeout) (wait_rows_r pg) ;;;
       call (WaitUntil PriceHasDollar timeout) (wait_price_r pg) ;;;
       ret None)
      TimeoutException
      (fun _ =>
         call (SaveScreenshot screenshot_file) (screenshot_r pg) ;;;
         print MsgTimeout ;;;
         ret (Some [])) ;;
  match early with
  | Some records => ret records
  | None =>
      rows <- call FindRows (rows_r pg) ;;
      for_rows 0 (slice_to rows n) []
  end.

End Scraper.
Export Scraper.

(* ===================================================================== *)
(** * The polling loop: [build_driver], [main] *)
(* ===================================================================== *)

Module Loop.

(** The parsed command line. *)
Record args := mk_args {
  headless : bool;
  topn : Z;
  output : str;
  timeout : Z;
  interval : Z;
  show_gainers : Z;
  show_losers : Z;
  min_price : option float;
  max_price : option float
}.

(** The session handle returned by [webdriver.Chrome]. *)
Inductive driver := ChromeSession.

(** What the browser installation answers while the session is set up
    and torn down. *)
Record session := mk_session {
  install_r : result unit;
  chrome_r : result unit;
  get_r : result unit;
  quit_r : result unit
}.

(** What the outside answers during one iteration of the loop. *)
Record cycle := mk_cycle {
  cycle_page : page;
  sleep_r : result unit
}.

Definition chrome_arguments (headless : bool) (window_size : str)
    : list str :=
  (if headless then [py "--headless=new"] else [])
  ++ [py "--no-sandbox"; py "--disable-dev-shm-usage";
      py "--window-size=" ++ window_size].

Definition home_url : str := py "https://coinmarketcap.com/".

(** [build_driver(headless)]. *)
Definition build_driver (ss : session) (headless : bool) : M driver :=
  call InstallDriver (install_r ss) ;;;
  call (StartChrome (chrome_arguments headless (py "1920,1080")))
       (chrome_r ss) ;;;
  let driver := ChromeSession in
  call (Get home_url) (get_r ss) ;;;
  ret driver.

(** Truth value of [a or b] for two optional floats. *)
Definition truthy_opt (v : option float) : bool :=
  match v with
  | None => false
  | Some x => PyFloat.truthy x
  end.

Definition or_truthy (a b : option float) : bool :=
  truthy_opt (if truthy_opt a then a else b).

(** Truth value of an [int]. *)
Definition truthy_int (n : Z) : bool := negb (n =? 0)%Z.

(** [time.sleep(seconds)]: a negative length is a [ValueError]. *)
Definition sleep (seconds : Z) (r : result unit) : M unit :=
  if (seconds <? 0)%Z
  then raise (mk_exn ValueError (py "sleep length must be non-negative"))
  else call (Sleep seconds) r.

Section Main.
Context {sorter : Sorter}.

Definition snapshot_columns : list str :=
  [py "rank"; py "name"; py "symbol"; py "price"; py "change_24h";
   py "market_cap"].
Definition price_columns : list str :=
  [py "name"; py "symbol"; py "price"; py "change_24h"].
Definition change_columns : list str :=
  [py "name"; py "symbol"; py "change_24h"].

(** The console views of a non-empty snapshot. *)
Definition render_views (a : args) (df : DataFrame) : M unit :=
  print MsgSnapshotTitle ;;;
  print (MsgTable snapshot_columns df) ;;;
  (if or_truthy (min_price a) (max_price a) then
     let df_filtered := filter_by_price df (min_price a) (max_price a) in
     if negb (Frame.empty df_filtered) then
       print MsgPriceTitle ;;;
       print (MsgTable price_columns df_filtered)
     else print MsgNoPriceMatch
   else ret tt) ;;;
  (if truthy_int (show_gainers a) then
     let gainers := filter_top_gainers df (show_gainers a) in
     print (MsgGainersTitle (show_gainers a)) ;;;
     print (MsgTable change_columns gainers)
   else ret tt) ;;;
  (if truthy_int (show_losers a) then
     let losers := filter_top_losers df (show_losers a) in
     print (MsgLosersTitle (show_losers a)) ;;;
     print (MsgTable change_columns losers)
   else ret tt).

(** Body of the inner [try] of one iteration. *)
Definition cycle_body (a : args) (pg : page) : M unit :=
  records <- scrape_top_n pg (topn a) (timeout a) ;;
  match records with
  | [] => print MsgNoData
  | _ :: _ =>
      save_to_csv records (output a) ;;;
      let df := records in
      render_views a df
  end.

(** How a run of the loop over finitely many iterations ends. *)
Inductive status :=
| Running     (* the iterations given are over, the loop goes on *)
| Finished.   (* the loop was left by [break] *)

(** [while True: ...] against the iterations [cycles]. *)
Fixpoint loop (a : args) (cycles : list cycle) : M status :=
  match cycles with
  | [] => ret Running
  | c :: rest =>
      try_catch (cycle_body a (cycle_page c)) Exception
        (fun e => print (MsgScrapeError e)) ;;;
      print (MsgWaiting (interval a)) ;;;
      stop <-
        try_catch (sleep (interval a) (sleep_r c) ;;; ret false)
          KeyboardInterrupt
          (fun _ => print MsgStopped ;;; ret true) ;;
      if stop : bool then ret Finished else loop a rest
  end.

(** The [finally] clause of [main]. *)
Definition cleanup (ss : session) (drv : option driver) : M unit :=
  match drv with
  | Some _ => call Quit (quit_r ss) ;;; print MsgBrowserClosed
  | None => ret tt
  end.

(** [main(args)] against the session [ss] and the iterations [cycles].
    [Ok Running] means that [main] is still inside the loop when the
    iterations given are over; [Ok Finished] that it returned;
    [Raise e] that [e] left [main]. *)
Definition main (a : args) (ss : session) (cycles : list cycle)
    : M status :=
  fun w =>
    let '(w1, r, drv) :=
      match build_driver ss (headless a) w with
      | (w0, Raise e) => (w0, Raise e, None)
      | (w0, Ok d) =>
          let '(w1, r) := (print MsgBrowserReady ;;; loop a cycles) w0 in
          (w1, r, Some d)
      end in
    match r with
    | Ok Running => (w1, Ok Running)
    | _ =>
        let '(w2, r2) :=
          try_catch (lift r) WebDriverException
            (fun e => print (MsgWebDriverError e) ;;; ret Finished) w1 in
        match cleanup ss drv w2 with
        | (w3, Ok _) => (w3, r2)
        | (w3, Raise e) => (w3, Raise e)
        end
    end.

End Main.

End Loop.
Export Loop.

(* ===================================================================== *)
(** * The vocabulary of the statements *)
(* ===================================================================== *)

(** The definitions below are not part of the program: they name what
    the statements of the last part say about it. *)

Module HelpersSpec.

(** ** The normalizer as the specification words it *)

(** [float] as a partial function: the value, or nothing for text that
    is not a numeral. *)
Definition numeral_value (s : str) : option float :=
  match float_of_str s with
  | Ok x => Some x
  | Raise _ => None
  end.

(** Removing every occurrence of the characters [cs]. *)
Definition remove_chars (cs : list N) (s : str) : str :=
  List.filter (fun c => negb (existsb (N.eqb c) cs)) s.

(** Currency symbol, thousands separator, placeholder for missing data. *)
Definition money_noise : list N := [36; 44; 0x2014]%N.

(** The magnitude suffixes, case-sensitive. *)
Definition magnitude : list (N * Z) :=
  [(75%N, 1000%Z); (77%N, 1000000%Z); (66%N, 1000000000%Z);
   (84%N, 1000000000000%Z)].

(** The factor of the suffix [c], if it is one. *)
Fixpoint factor_of (table : list (N * Z)) (c : N) : option Z :=
  match table with
  | [] => None
  | (k, f) :: rest => if (c =? k)%N then Some f else factor_of rest c
  end.

(** At most one trailing suffix: the numeral and its factor. *)
Definition split_suffix (s : str) : str * Z :=
  match last s with
  | Some c =>
      match factor_of magnitude c with
      | Some f => (removelast s, f)
      | None => (s, 1%Z)
      end
  | None => (s, 1%Z)
  end.

(** The reading of a money text, in the specification's words: nothing
    for the empty text; otherwise the noise characters are removed, one
    trailing suffix is split off, the rest is read as a float and
    multiplied by the factor of the suffix. *)
Definition money_value (text : str) : option float :=
  match text with
  | [] => None
  | _ :: _ =>
      let '(numeral, factor) :=
        split_suffix (strip (remove_chars money_noise text)) in
      match numeral_value numeral with
      | Some x => Some (mul_int x factor)
      | None => None
      end
  end.

(** Percent symbol and thousands separator. *)
Definition percent_noise : list N := [37; 44]%N.

(** Dropping a leading sign when it is ['+']. *)
Definition strip_leading_plus (s : str) : str :=
  match s with
  | 43%N :: r => r
  | _ => s
  end.

(** The reading of a percentage text, in the specification's words: only
    a leading ['+'] is dropped. *)
Definition percent_value_leading (text : str) : option float :=
  match text with
  | [] => None
  | _ :: _ =>
      numeral_value
        (strip (remove_chars percent_noise (strip_leading_plus text)))
  end.

(** The reading of a percentage text in which every ['+'] is dropped,
    wherever it stands. *)
Definition percent_value (text : str) : option float :=
  match text with
  | [] => None
  | _ :: _ => numeral_value (strip (remove_chars (43%N :: percent_noise) text))
  end.

End HelpersSpec.
Import HelpersSpec.

Module FrameSpec.

(** ** The order of [sort_values]: by value, null cells last *)

(** [precedesb key asc a b]: row [a] may stand before row [b] in a frame
    sorted by [key], ascending or descending: [b] has a null key, or both
    keys are there and in order. *)
Definition precedesb (key : record -> option float) (asc : bool)
    (a b : record) : bool :=
  match key a, key b with
  | _, None => true
  | None, Some y => isnan y
  | Some x, Some y =>
      isnan y || (if asc then PyFloat.leb x y else PyFloat.leb y x)
  end.

Definition precedes (key : record -> option float) (asc : bool)
    (a b : record) : Prop :=
  precedesb key asc a b = true.

(** What the data-frame library promises of [sort_values]: the rows are
    rearranged, by value in the direction asked for, null cells last.
    The order among rows of equal value is left to the sorting
    algorithm. *)
Class SorterSpec (sorter : Sorter) : Prop := {
  sort_values_perm : forall key asc df,
    Permutation (sort_values key asc df) df;
  sort_values_sorted : forall key asc df,
    StronglySorted (precedes key asc) (sort_values key asc df)
}.

(** ** A stable sorting algorithm (the library's [kind="stable"]) *)

Section Insertion.
Context {A : Type} (le : A -> A -> bool).

Fixpoint insert_by (x : A) (l : list A) : list A :=
  match l with
  | [] => [x]
  | y :: l' => if le x y then x :: l else y :: insert_by x l'
  end.

Definition stable_sort (l : list A) : list A :=
  fold_right insert_by [] l.

End Insertion.

Definition stable_sorter : Sorter :=
  fun key asc df => stable_sort (precedesb key asc) df.

(** The same algorithm run over the rows in reverse: rows of equal value
    come out in the opposite order. *)
Definition reversing_sorter : Sorter :=
  fun key asc df => stable_sort (precedesb key asc) (rev df).

(** ** Views *)

(** Number of rows whose [change_24h] is not null. *)
Definition count_notna (df : DataFrame) : nat :=
  length (List.filter (fun r => notna (change_24h r)) df).

(** What a top-[k] view [out] of the frame [df] is: *)
Record TopView (asc : bool) (df : DataFrame) (k : Z) (out : DataFrame)
    : Prop := {
  (** it holds [min k (len df)] rows; *)
  top_length : Z.of_nat (length out) = Z.min k (Z.of_nat (length df));
  (** it heads an arrangement of [df] sorted by change, nulls last; *)
  top_sorted : exists rest,
      Permutation df (out ++ rest)
      /\ StronglySorted (precedes change_24h asc) (out ++ rest);
  (** it holds no null change when [df] has [k] others to offer; *)
  top_notna : (k <= Z.of_nat (count_notna df))%Z ->
      Forall (fun r => notna (change_24h r) = true) out;
  (** it holds every row with a change when [df] has no more than [k]. *)
  top_all : (Z.of_nat (count_notna df) <= k)%Z ->
      forall r, In r df -> notna (change_24h r) = true -> In r out
}.

(** Price within the optional bounds, both inclusive. *)
Definition within (lo hi : option float) (v : option float) : bool :=
  notna v
  && match lo with Some m => cell_ge v m | None => true end
  && match hi with Some m => cell_le v m | None => true end.

(** At least one bound is given. *)
Definition bounded (lo hi : option float) : bool :=
  match lo, hi with None, None => false | _, _ => true end.

End FrameSpec.
Import FrameSpec.

Module EffectSpec.

(** [log w evs]: the world [w] after the commands [evs]. *)
Definition log (w : world) (evs : list event) : world :=
  mk_world (fs w) (clock w) (reads w) (trace w ++ evs).

(** The rows of one batch, all with the same stamp. *)
Definition rows_of (records : list record) (stamp : isostamp) : list csv_line :=
  map (fun r => Row r stamp) records.

(** The lines of the file after a batch is appended to its content [old]
    ([None]: the path did not exist). *)
Definition appended (old : option (list csv_line)) (records : list record)
    (stamp : isostamp) : list csv_line :=
  default [] old
  ++ (match old with None => [Header csv_columns] | Some _ => [] end)
  ++ rows_of records stamp.

(** The world after a non-empty batch went to [path]. *)
Definition saved (records : list record) (path : str) (w : world) : world :=
  mk_world
    (<[path := appended (fs w !! path) records (IsoUtc (clock w (reads w)))]>
       (fs w))
    (clock w) (S (reads w)) (trace w).

End EffectSpec.
Import EffectSpec.

Module ScraperSpec.

(** ** A cycle that times out *)

(** The readiness condition is not met within the timeout: the page was
    refreshed and scrolled, and the wait for a row, or after it the wait
    for the currency symbol in the price cell, raised [TimeoutException]. *)
Inductive timed_out (pg : page) : Prop :=
| timed_out_rows (e : exn) :
    refresh_r pg = Ok tt -> script_r pg = Ok tt ->
    wait_rows_r pg = Raise e -> isinstance e TimeoutException = true ->
    timed_out pg
| timed_out_price (e : exn) :
    refresh_r pg = Ok tt -> script_r pg = Ok tt -> wait_rows_r pg = Ok tt ->
    wait_price_r pg = Raise e -> isinstance e TimeoutException = true ->
    timed_out pg.

(** The commands of the readiness wait. *)
Definition wait_events (pg : page) (timeout : Z) : list event :=
  [Refresh; ExecuteScript scroll_js; WaitUntil RowPresent timeout]
  ++ (if returned (wait_rows_r pg) then [WaitUntil PriceHasDollar timeout]
      else []).

(** The commands of a cycle that timed out. *)
Definition timeout_events (pg : page) (timeout : Z) : list event :=
  wait_events pg timeout ++ [SaveScreenshot screenshot_file; Print MsgTimeout].

(** ** Rows *)

(** The outcome of reading [cols[i].text]. *)
Definition cell (cols : list (result str)) (i : nat) : result str :=
  match nth_error cols i with
  | Some t => t
  | None => Raise (mk_exn IndexError (py "list index out of range"))
  end.

(** The record read off the texts of cells 1, 2, 3, 4 and 7. *)
Definition record_of (t1 t2 t3 t4 t7 : str) : record :=
  let raw_name := split_char 10%N (strip t2) in
  mk_record (strip t1) (nth 0 raw_name []) (nth 1 raw_name [])
    (money_value (strip t3)) (percent_value (strip t4))
    (money_value (strip t7)).

(** Reading the cells in the order the code reads them. *)
Definition read_cells (cols : list (result str)) : result record :=
  bind (cell cols 2) (fun t2 =>
  bind (cell cols 3) (fun t3 =>
  bind (cell cols 4) (fun t4 =>
  bind (cell cols 7) (fun t7 =>
  bind (cell cols 1) (fun t1 =>
  Ok (record_of t1 t2 t3 t4 t7)))))).

(** What becomes of one row. *)
Inductive verdict :=
| Kept (r : record)   (* a record is appended *)
| Short               (* fewer than 8 cells: skipped *)
| Failed (e : exn).   (* the extraction raised [e] *)

(** The verdict on a row, from what the row answers. *)
Definition row_verdict (row : row_dom) : verdict :=
  match row_cells row with
  | Raise e => Failed e
  | Ok cols =>
      if (length cols <? 8)%nat then Short
      else match read_cells cols with
           | Ok r => Kept r
           | Raise e => Failed e
           end
  end.

(** A row whose failure, if any, is an [Exception]. *)
Definition contained (row : row_dom) : Prop :=
  forall e, row_verdict row = Failed e -> isinstance e Exception = true.

(** The records of the rows kept, in the order of the rows. *)
Definition kept (rows : list row_dom) : list record :=
  omap (fun row => match row_verdict row with
                   | Kept r => Some r
                   | _ => None
                   end) rows.

(** The commands and warnings of the loop over [rows], the first of which
    has index [i]. *)
Fixpoint rows_trace (i : nat) (rows : list row_dom) : list event :=
  match rows with
  | [] => []
  | row :: rows' =>
      FindCells i
      :: match row_verdict row with
         | Failed e => [Print (MsgRowFailed i e)]
         | _ => []
         end
      ++ rows_trace (S i) rows'
  end.

(** The commands before the loop over the rows of a page that is ready. *)
Definition ready_events (timeout : Z) : list event :=
  [Refresh; ExecuteScript scroll_js; WaitUntil RowPresent timeout;
   WaitUntil PriceHasDollar timeout; FindRows].

End ScraperSpec.
Import ScraperSpec.

Module LoopSpec.

(** ** What a computation sends out *)

(** The command is a call of [driver.quit()]. *)
Definition is_quit (e : event) : bool :=
  match e with Quit => true | _ => false end.

(** Number of [driver.quit()] calls among the commands [evs]. *)
Definition quits (evs : list event) : nat := length (List.filter is_quit evs).

(** [m] only adds commands to the trace, none of them [Quit]. *)
Definition quiet {A} (m : M A) : Prop :=
  forall w w' r, m w = (w', r) ->
    exists evs, trace w' = trace w ++ evs /\ quits evs = 0%nat.

(** What the cycle handler prints for the outcome [r] of a cycle body. *)
Definition err_events (r : result unit) : list event :=
  match r with
  | Raise e => [Print (MsgScrapeError e)]
  | Ok _ => []
  end.

(** A cycle body that returns, or raises an [Exception]. *)
Definition caught (r : result unit) : Prop :=
  forall e, r = Raise e -> isinstance e Exception = true.

(** The table of the whole snapshot. *)
Definition snapshot_events (df : DataFrame) : list event :=
  [Print MsgSnapshotTitle; Print (MsgTable snapshot_columns df)].

(** The price view of [df] for the bounds [lo] and [hi]. *)
Definition price_view_events (df : DataFrame) (lo hi : option float)
    : list event :=
  let df_filtered := filter_by_price df lo hi in
  if Frame.empty df_filtered then [Print MsgNoPriceMatch]
  else [Print MsgPriceTitle; Print (MsgTable price_columns df_filtered)].

(** The output belongs to the price view. *)
Definition is_price_view (e : event) : bool :=
  match e with
  | Print MsgPriceTitle | Print MsgNoPriceMatch => true
  | Print (MsgTable cols _) => bool_decide (cols = price_columns)
  | _ => false
  end.

(** The world and outcome of [main] once the loop is left with [r]. *)
Definition closing (ss : session) (w1 : world) (r : result status)
    : world * result status :=
  let '(w2, r2) :=
    match r with
    | Raise e =>
        if isinstance e WebDriverException
        then (log w1 [Print (MsgWebDriverError e)], Ok Finished)
        else (w1, Raise e)
    | Ok s => (w1, Ok s)
    end in
  match quit_r ss with
  | Ok _ => (log w2 [Quit; Print MsgBrowserClosed], r2)
  | Raise q => (log w2 [Quit], Raise q)
  end.

Section Main.
Context {sorter : Sorter}.

(** The gainers and losers views, each shown for a non-zero count. *)
Definition top_events (a : args) (df : DataFrame) : list event :=
  (if truthy_int (show_gainers a)
   then [Print (MsgGainersTitle (show_gainers a));
         Print (MsgTable change_columns
                  (filter_top_gainers df (show_gainers a)))]
   else [])
  ++ (if truthy_int (show_losers a)
      then [Print (MsgLosersTitle (show_losers a));
            Print (MsgTable change_columns
                     (filter_top_losers df (show_losers a)))]
      else []).

(** The part of one iteration after the cycle handler: the sleep, and
    what follows it. *)
Definition idle (a : args) (c : cycle) (rest : list cycle) : M status :=
  stop <-
    try_catch (sleep (interval a) (sleep_r c) ;;; ret false)
      KeyboardInterrupt
      (fun _ => print MsgStopped ;;; ret true) ;;
  if stop : bool then ret Finished else loop a rest.

End Main.

End LoopSpec.
Import LoopSpec.

(* ===================================================================== *)
(** * Sample data *)
(* ===================================================================== *)

Module Samples.

(** ** Sample frames *)

Definition row (nm : string) (p c : option float) : record :=
  mk_record (py "1") (py nm) (py nm) p c None.

(** A snapshot whose only record has no 24h change. *)
Definition frame_null_change : DataFrame :=
  [row "BTC" (Some (of_Z 64000)) None].

(** A snapshot with two equal changes and one missing change. *)
Definition frame_tied : DataFrame :=
  [row "AAA" (Some (of_Z 1)) (Some (of_Z 2));
   row "BBB" None None;
   row "CCC" (Some (of_Z 3)) (Some (of_Z 2));
   row "DDD" (Some (of_Z 5)) (Some (of_Z 7))].

Definition sample_world : world := mk_world ∅ (fun n => N.of_nat n) 0 [].

Definition sample_path : str := py "crypto_prices.csv".

Definition sample_args : args :=
  mk_args true 10 sample_path 30 10 5 5 None None.

Definition ok_session : session :=
  mk_session (Ok tt) (Ok tt) (Ok tt) (Ok tt).

Definition td (s : string) : result str := Ok (py s).

(** A table row of eleven cells, as the page lays it out; the name cell
    holds the name and the symbol on two lines. *)
Definition coin_row (rnk nm sym price change cap : string) : row_dom :=
  mk_row (Ok [td ""; td rnk; Ok (py nm ++ [10%N] ++ py sym); td price;
              td change; td ""; td ""; td cap; td ""; td ""; td ""]).

Definition stale : exn :=
  mk_exn StaleElementReferenceException (py "stale element reference").

(** A good row, a short row, a row that fails and another good row. *)
Definition sample_rows : list row_dom :=
  [coin_row "1" "Bitcoin" "BTC" "$64,000" "+3.25%" "$1.2T";
   mk_row (Ok [td ""; td "ad"]);
   mk_row (Raise stale);
   coin_row "2" "Ethereum" "ETH" "$3,100.5" "-1.5%" "$372.5B"].

(** A page that is ready and shows [sample_rows]. *)
Definition sample_page : page :=
  mk_page (Ok tt) (Ok tt) (Ok tt) (Ok tt) (Ok true) (Ok sample_rows).

(** The records of the two good rows of [sample_rows]. *)
Definition sample_records : list record :=
  [mk_record (py "1") (py "Bitcoin") (py "BTC")
     (Some (of_Z 64000)) (Some (of_binary 13 (-2)))
     (Some (of_Z 1200000000000));
   mk_record (py "2") (py "Ethereum") (py "ETH")
     (Some (of_binary 6201 (-1))) (Some (of_binary (-3) (-1)))
     (Some (of_Z 372500000000))].

Definition timeout_exn : exn := mk_exn TimeoutException (py "").

(** A page whose table does not show up in time. *)
Definition slow_page : page :=
  mk_page (Ok tt) (Ok tt) (Raise timeout_exn) (Ok tt) (Ok true) (Ok []).

Definition crashed : exn :=
  mk_exn WebDriverException (py "chrome not reachable").

(** A page whose browser is gone: every command raises. *)
Definition crashed_page : page :=
  mk_page (Raise crashed) (Raise crashed) (Raise crashed) (Raise crashed)
    (Raise crashed) (Raise crashed).

Definition ctrl_c : exn := mk_exn KeyboardInterrupt [].

Definition sample_cycle : cycle := mk_cycle sample_page (Ok tt).

Definition slow_cycle : cycle := mk_cycle slow_page (Ok tt).

Definition crashed_cycle : cycle := mk_cycle crashed_page (Ok tt).

Definition interrupted_cycle : cycle := mk_cycle sample_page (Raise ctrl_c).

Definition no_chrome : exn :=
  mk_exn WebDriverException (py "unable to obtain driver for chrome").

Definition no_network : exn :=
  mk_exn WebDriverException (py "net::ERR_INTERNET_DISCONNECTED").

(** A machine on which Chrome does not start. *)
Definition session_without_chrome : session :=
  mk_session (Ok tt) (Raise no_chrome) (Ok tt) (Ok tt).

(** A machine on which Chrome starts and the first page load fails. *)
Definition session_without_network : session :=
  mk_session (Ok tt) (Ok tt) (Raise no_network) (Ok tt).

(** ** The price view and a bound of zero *)

Definition zero_bound_args : args :=
  mk_args true 10 sample_path 30 10 5 5 (Some (of_Z 0)) None.

Definition one_bound_args : args :=
  mk_args true 10 sample_path 30 10 5 5 (Some (of_Z 1)) None.

Definition interrupted_page : page :=
  mk_page (Raise ctrl_c) (Ok tt) (Ok tt) (Ok tt) (Ok true) (Ok []).

Definition backwards_args : args :=
  mk_args true 10 sample_path 30 (-1) 5 5 None None.

End Samples.
Import Samples.

(* ===================================================================== *)
(** * Further vocabulary: normalizer, file log, readiness *)
(* ===================================================================== *)

Module NormalizerSpec.

(** The characters [parse_percent] removes. *)
Definition percent_removed : list N := 43%N :: percent_noise.

(** A character that carries nothing for [parse_money]: noise or space. *)
Definition money_blank (c : N) : bool :=
  existsb (N.eqb c) money_noise || isspace c.

(** A character that carries nothing for [parse_percent]. *)
Definition percent_blank (c : N) : bool :=
  existsb (N.eqb c) percent_removed || isspace c.

End NormalizerSpec.
Import NormalizerSpec.

Module LogSpec.

(** Saving the batches of successive cycles to one path, as the loop does
    cycle after cycle. *)
Fixpoint save_all (batches : list (list record)) (path : str) : M unit :=
  match batches with
  | [] => ret tt
  | b :: rest => save_to_csv b path ;;; save_all rest path
  end.

Definition is_batch (b : list record) : bool :=
  match b with [] => false | _ :: _ => true end.

(** The rows of the batches, each non-empty batch with the clock reading
    it takes, from reading [n] on. *)
Fixpoint stamped (clock : nat -> N) (n : nat) (batches : list (list record))
    : list csv_line :=
  match batches with
  | [] => []
  | b :: rest =>
      if is_batch b
      then rows_of b (IsoUtc (clock n)) ++ stamped clock (S n) rest
      else stamped clock n rest
  end.

Definition is_header (l : csv_line) : bool :=
  match l with Header _ => true | Row _ _ => false end.

(** The content of [path]: no lines when the path does not exist. *)
Definition content (w : world) (path : str) : list csv_line :=
  default [] (fs w !! path).

(** From [w] to [w'] the file at [path] was at most extended, and was not
    removed. *)
Definition grown (path : str) (w w' : world) : Prop :=
  (exists added, content w' path = content w path ++ added)
  /\ (is_Some (fs w !! path) -> is_Some (fs w' !! path)).

(** Whatever [m] does, the file at [path] is at most extended. *)
Definition append_only {A} (path : str) (m : M A) : Prop :=
  forall w w' r, m w = (w', r) -> grown path w w'.

End LogSpec.
Import LogSpec.

Module ReadinessSpec.

(** The first of the four calls before the rows are read (refresh,
    scroll, the two waits) that raises, if one does. *)
Definition first_failure (pg : page) : option exn :=
  match refresh_r pg, script_r pg, wait_rows_r pg, wait_price_r pg with
  | Raise e, _, _, _ => Some e
  | Ok _, Raise e, _, _ => Some e
  | Ok _, Ok _, Raise e, _ => Some e
  | Ok _, Ok _, Ok _, Raise e => Some e
  | Ok _, Ok _, Ok _, Ok _ => None
  end.

(** The commands issued up to the first of these calls that raises. *)
Definition attempted (pg : page) (timeout : Z) : list event :=
  Refresh
  :: (if returned (refresh_r pg) then
        ExecuteScript scroll_js
        :: (if returned (script_r pg) then
              WaitUntil RowPresent timeout
              :: (if returned (wait_rows_r pg)
                  then [WaitUntil PriceHasDollar timeout]
                  else [])
            else [])
      else []).

(** The page is ready: the four calls return. *)
Definition ready (pg : page) : Prop :=
  refresh_r pg = Ok tt /\ script_r pg = Ok tt
  /\ wait_rows_r pg = Ok tt /\ wait_price_r pg = Ok tt.

(** A cycle that is given up for this time and leaves the loop running:
    the page times out, the screenshot is taken, the sleep returns. *)
Definition degraded (c : cycle) : Prop :=
  timed_out (cycle_page c)
  /\ (exists b, screenshot_r (cycle_page c) = Ok b)
  /\ sleep_r c = Ok tt.

End ReadinessSpec.
Import ReadinessSpec.

(* ===================================================================== *)
(** * Statements: the numeric normalizer *)
(* ===================================================================== *)

Module HelpersFacts.

(** ** String lemmas *)

Lemma startswith_single (c d : N) (s : str) :
  startswith (d :: s) [c] = (d =? c)%N.
Proof. destruct s; simpl; apply andb_true_r. Qed.

Lemma replace_single (c : N) (s : str) :
  replace s [c] [] = List.filter (fun d => negb (d =? c)%N) s.
Proof.
  unfold replace.
  induction s as [|d s IH]; [reflexivity|].
  cbn [replace_scan List.filter]. rewrite startswith_single.
  destruct (d =? c)%N; cbn [negb length Nat.sub app]; now rewrite IH.
Qed.

Lemma filter_filter {A} (f g : A -> bool) (l : list A) :
  List.filter f (List.filter g l) = List.filter (fun x => g x && f x) l.
Proof.
  induction l as [|x l IH]; [reflexivity|]. simpl.
  destruct (g x); simpl; [destruct (f x)|]; now rewrite IH.
Qed.

Lemma filter_ext' {A} (f g : A -> bool) (l : list A) :
  (forall x, f x = g x) -> List.filter f l = List.filter g l.
Proof. intros E. induction l as [|x l IH]; simpl; [easy|]. now rewrite E, IH. Qed.

Lemma replace3 (a b c : N) (s : str) :
  replace (replace (replace s [a] []) [b] []) [c] []
  = remove_chars [a; b; c] s.
Proof.
  rewrite !replace_single, !filter_filter. unfold remove_chars.
  apply filter_ext'. intros x. simpl.
  destruct (x =? a)%N, (x =? b)%N, (x =? c)%N; reflexivity.
Qed.

Lemma str_eqb_single (c d : N) : str_eqb [d] [c] = (d =? c)%N.
Proof. simpl. apply andb_true_r. Qed.

Lemma endswith_snoc (s : str) (d c : N) :
  endswith (s ++ [d]) [c] = (d =? c)%N.
Proof.
  unfold endswith. rewrite length_app. cbn [length].
  replace (length s + 1 - 1)%nat with (length s) by lia.
  rewrite skipn_app, skipn_all, Nat.sub_diag. cbn [skipn app].
  rewrite str_eqb_single.
  destruct (Nat.leb_spec 1 (length s + 1)); [reflexivity | lia].
Qed.

Lemma slice_to_snoc {A} (l : list A) (x : A) : slice_to (l ++ [x]) (-1) = l.
Proof.
  change (slice_to (l ++ [x]) (-1))
    with (firstn (length (l ++ [x]) - 1) (l ++ [x])).
  rewrite length_app. cbn [length].
  replace (length l + 1 - 1)%nat with (length l) by lia.
  apply take_app_length.
Qed.

Lemma split_suffix_snoc (s : str) (d : N) :
  split_suffix (s ++ [d])
  = match factor_of magnitude d with
    | Some f => (s, f)
    | None => (s ++ [d], 1%Z)
    end.
Proof.
  unfold split_suffix. rewrite last_snoc, removelast_last. reflexivity.
Qed.

(** The [if]/[elif] chain over the suffixes is the table lookup. *)
Lemma suffix_chain (t : str) :
  (if endswith t (py "K") then (1000%Z, slice_to t (-1))
   else if endswith t (py "M") then (1000000%Z, slice_to t (-1))
   else if endswith t (py "B") then (1000000000%Z, slice_to t (-1))
   else if endswith t (py "T") then (1000000000000%Z, slice_to t (-1))
   else (1%Z, t))
  = (snd (split_suffix t), fst (split_suffix t)).
Proof.
  induction t as [|d s _] using rev_ind; [reflexivity|].
  change (py "K") with [75%N]. change (py "M") with [77%N].
  change (py "B") with [66%N]. change (py "T") with [84%N].
  rewrite !endswith_snoc, slice_to_snoc, split_suffix_snoc.
  cbn [factor_of magnitude].
  destruct (d =? 75)%N, (d =? 77)%N, (d =? 66)%N, (d =? 84)%N; reflexivity.
Qed.

Lemma float_of_str_catch {A} (s : str) (k : float -> option A) :
  try_except (bind (float_of_str s) (fun x => Ok (k x))) ValueError
    (fun _ => Ok None)
  = Ok (match numeral_value s with Some x => k x | None => None end).
Proof.
  unfold numeral_value, float_of_str.
  destruct (underscores_ok _ _); [|reflexivity].
  destruct (parse_numeral _); reflexivity.
Qed.

(** ** [parse_money] *)

Lemma parse_money_value (text : str) :
  parse_money text = Ok (money_value text).
Proof.
  destruct text as [|c text]; [reflexivity|].
  unfold parse_money, money_value. cbn [PyStr.truthy negb].
  change chr_comma with [44%N]. change chr_dollar with [36%N].
  change chr_emdash with [0x2014%N].
  rewrite replace3.
  replace (remove_chars [44%N; 36%N; 0x2014%N] (c :: text))
    with (remove_chars money_noise (c :: text)).
  2:{ unfold remove_chars, money_noise. apply filter_ext'. intros x. simpl.
      destruct (x =? 36)%N, (x =? 44)%N, (x =? 8212)%N; reflexivity. }
  rewrite suffix_chain.
  destruct (split_suffix _) as [numeral factor]. cbn [fst snd].
  apply float_of_str_catch.
Qed.

Lemma parse_percent_value (text : str) :
  parse_percent text = Ok (percent_value text).
Proof.
  destruct text as [|c text]; [reflexivity|].
  unfold parse_percent, percent_value. cbn [PyStr.truthy negb].
  change chr_percent with [37%N]. change chr_plus with [43%N].
  change chr_comma with [44%N].
  rewrite replace3.
  replace (remove_chars [37%N; 43%N; 44%N] (c :: text))
    with (remove_chars (43%N :: percent_noise) (c :: text)).
  2:{ unfold remove_chars, percent_noise. apply filter_ext'. intros x. simpl.
      destruct (x =? 43)%N, (x =? 37)%N, (x =? 44)%N; reflexivity. }
  rewrite (float_of_str_catch _ Some).
  now destruct (numeral_value _).
Qed.

End HelpersFacts.
Import HelpersFacts.

(** C1. For every input string, [parse_money] removes the currency symbol,
    the thousands separators and the em-dash placeholder, recognises at
    most one case-sensitive trailing magnitude suffix among K, M, B, T
    (factor 1 without a suffix), reads the remainder as a float and
    multiplies it by the factor; it returns [None] on empty input and on
    a remainder that is not a numeral, and it never raises.  The five
    sample values of the specification hold; a numeral with two decimal
    points, a lower-case suffix and a second suffix each give [None]. *)
Theorem parse_money_spec :
  (forall text, parse_money text = Ok (money_value text))
  /\ (forall text, exists v, parse_money text = Ok v)
  /\ parse_money (py "$64,000") = Ok (Some (of_Z 64000))
  /\ parse_money (py "$1.2B") = Ok (Some (of_Z 1200000000))
  /\ parse_money (py "—") = Ok None
  /\ parse_money (py "") = Ok None
  /\ parse_money (py "$0.5K") = Ok (Some (of_Z 500))
  /\ parse_money (py "$1.2.3") = Ok None
  /\ parse_money (py "$1.2k") = Ok None
  /\ parse_money (py "$1.2KM") = Ok None.
Proof.
  pose proof parse_money_value as E.
  split; [exact E|]. split; [intros text; eexists; apply E|].
  repeat split; vm_compute; reflexivity.
Qed.

(** ** [parse_percent] *)

(** C2, as stated: only a leading ['+'] is dropped.  On ["1+2%"] the code
    drops the inner ['+'] and returns 12.0, where the stated reading finds
    no numeral. *)
Lemma parse_percent_inner_plus :
  parse_percent (py "1+2%") = Ok (Some (of_Z 12))
  /\ percent_value_leading (py "1+2%") = None
  /\ parse_percent (py "1+2%") <> Ok (percent_value_leading (py "1+2%")).
Proof. repeat split; vm_compute; congruence. Qed.

(** C2, amended. For every input string, [parse_percent] removes every
    ['+'] (wherever it stands), every percent symbol and every thousands
    separator, and reads the remainder as a float; a ['-'] is never
    removed, so a leading ['-'] stays in front of the numeral; the result
    is [None] on empty or unparseable input, and no exception is raised.
    The three sample values of the specification hold. *)
Theorem parse_percent_spec :
  (forall text, parse_percent text = Ok (percent_value text))
  /\ (forall text, exists v, parse_percent text = Ok v)
  /\ (forall text,
        percent_value (45%N :: text)
        = numeral_value
            (strip (45%N :: remove_chars (43%N :: percent_noise) text)))
  /\ parse_percent (py "+3.25%") = Ok (Some (of_binary 13 (-2)))
  /\ parse_percent (py "-1.5%") = Ok (Some (of_binary (-3) (-1)))
  /\ parse_percent (py "") = Ok None.
Proof.
  pose proof parse_percent_value as E.
  split; [exact E|]. split; [intros text; eexists; apply E|].
  split; [reflexivity|].
  repeat split; vm_compute; reflexivity.
Qed.

(* ===================================================================== *)
(** * Statements: the data-frame views *)
(* ===================================================================== *)

Module FrameFacts.

(** ** Comparison of floats *)

Ltac cmp_cases :=
  repeat match goal with
    | |- context [Z.compare ?a ?b] => destruct (Z.compare_spec a b)
    | H : context [Z.compare ?a ?b] |- _ => destruct (Z.compare_spec a b)
    | |- context [Pos.compare_cont Eq ?a ?b] =>
        change (Pos.compare_cont Eq a b) with (Pos.compare a b)
    | H : context [Pos.compare_cont Eq ?a ?b] |- _ =>
        change (Pos.compare_cont Eq a b) with (Pos.compare a b) in H
    | |- context [Pos.compare ?a ?b] => destruct (Pos.compare_spec a b)
    | H : context [Pos.compare ?a ?b] |- _ => destruct (Pos.compare_spec a b)
    end;
  cbn in *; try congruence; try lia.

Lemma leb_total (x y : float) :
  isnan x = false -> isnan y = false ->
  PyFloat.leb x y = false -> PyFloat.leb y x = true.
Proof.
  unfold PyFloat.leb, SFleb, SFcompare.
  destruct x as [[]|[]| |[] mx ex], y as [[]|[]| |[] my ey];
    cbn; intros; try congruence; cmp_cases.
Qed.

Lemma leb_trans (x y z : float) :
  PyFloat.leb x y = true -> PyFloat.leb y z = true -> PyFloat.leb x z = true.
Proof.
  unfold PyFloat.leb, SFleb, SFcompare.
  destruct x as [[]|[]| |[] mx ex], y as [[]|[]| |[] my ey],
           z as [[]|[]| |[] mz ez];
    cbn; intros; try congruence; cmp_cases.
Qed.

Lemma leb_nan_l (x y : float) : PyFloat.leb x y = true -> isnan x = false.
Proof. destruct x; [reflexivity.. | discriminate | reflexivity]. Qed.

Lemma leb_nan_r (x y : float) : PyFloat.leb x y = true -> isnan y = false.
Proof. destruct x, y; try reflexivity; discriminate. Qed.

Lemma precedesb_total key asc a b :
  precedesb key asc a b = false -> precedesb key asc b a = true.
Proof.
  unfold precedesb.
  destruct (key a) as [x|], (key b) as [y|]; try congruence; try reflexivity.
  destruct (isnan y) eqn:Ey; [discriminate|]. cbn [orb].
  destruct (isnan x) eqn:Ex; [reflexivity|]. cbn [orb].
  destruct asc; intros H; now apply leb_total.
Qed.

Lemma precedesb_trans key asc a b c :
  precedesb key asc a b = true -> precedesb key asc b c = true ->
  precedesb key asc a c = true.
Proof.
  unfold precedesb.
  destruct (key c) as [z|]; [|destruct (key a); reflexivity].
  destruct (isnan z) eqn:Ez; [destruct (key a); reflexivity|].
  destruct (key b) as [y|]; [|destruct (key a); discriminate]. cbn [orb].
  intros Hab Hbc.
  assert (Ey : isnan y = false).
  { destruct asc; [eapply leb_nan_l | eapply leb_nan_r]; exact Hbc. }
  rewrite Ey in Hab.
  destruct (key a) as [x|]; [|discriminate]. cbn [orb] in Hab.
  destruct asc; eapply leb_trans; eassumption.
Qed.

(** ** A stable sorting algorithm (the library's [kind="stable"]) *)

Section Insertion.

Context {A : Type} (le : A -> A -> bool).

Lemma insert_by_perm x l : Permutation (insert_by le x l) (x :: l).
Proof.
  induction l as [|y l IH]; cbn; [reflexivity|].
  destruct (le x y); [reflexivity|].
  rewrite IH. apply perm_swap.
Qed.

Lemma stable_sort_perm l : Permutation (stable_sort le l) l.
Proof.
  induction l as [|x l IH]; cbn; [reflexivity|].
  rewrite insert_by_perm. now apply perm_skip.
Qed.

Hypothesis le_total : forall x y, le x y = false -> le y x = true.

Hypothesis le_trans :
  forall x y z, le x y = true -> le y z = true -> le x z = true.

Lemma insert_by_sorted x l :
  StronglySorted (fun a b => le a b = true) l ->
  StronglySorted (fun a b => le a b = true) (insert_by le x l).
Proof using le_total le_trans.
  induction 1 as [|y l Hs IH Hy]; cbn.
  - repeat constructor.
  - destruct (le x y) eqn:E.
    + constructor; [now constructor|].
      constructor; [exact E|].
      eapply Forall_impl; [exact Hy|]. intros z Hz. cbn in *.
      now apply (le_trans x y z).
    + constructor; [exact IH|].
      rewrite (insert_by_perm x l).
      constructor; [now apply le_total | exact Hy].
Qed.

Lemma stable_sort_sorted l :
  StronglySorted (fun a b => le a b = true) (stable_sort le l).
Proof using le_total le_trans.
  induction l as [|x l IH]; cbn; [constructor|].
  now apply insert_by_sorted.
Qed.

End Insertion.

Lemma stable_sorter_spec : SorterSpec stable_sorter.
Proof.
  split; intros key asc df; unfold sort_values, stable_sorter.
  - apply stable_sort_perm.
  - apply stable_sort_sorted.
    + apply precedesb_total.
    + apply precedesb_trans.
Qed.

Lemma reversing_sorter_spec : SorterSpec reversing_sorter.
Proof.
  split; intros key asc df; unfold sort_values, reversing_sorter.
  - rewrite stable_sort_perm. symmetry. apply Permutation_rev.
  - apply stable_sort_sorted.
    + apply precedesb_total.
    + apply precedesb_trans.
Qed.

(** ** Lists *)

Lemma filter_perm {A} (f : A -> bool) (l l' : list A) :
  Permutation l l' -> Permutation (List.filter f l) (List.filter f l').
Proof.
  induction 1 as [|x l l' _ IH|x y l|l l' l'' _ IH1 _ IH2]; cbn.
  - constructor.
  - destruct (f x); [now constructor | exact IH].
  - destruct (f x), (f y); try reflexivity. apply perm_swap.
  - now transitivity (List.filter f l').
Qed.

Lemma filter_none {A} (f : A -> bool) (l : list A) :
  Forall (fun x => f x = false) l -> List.filter f l = [].
Proof. induction 1 as [|x l E _ IH]; cbn; [easy|]. now rewrite E. Qed.

Lemma filter_all {A} (f : A -> bool) (l : list A) :
  Forall (fun x => f x = true) l -> List.filter f l = l.
Proof. induction 1 as [|x l E _ IH]; cbn; [easy|]. now rewrite E, IH. Qed.

Lemma in_firstn {A} (n : nat) (l : list A) (x : A) :
  In x (firstn n l) -> In x l.
Proof.
  revert l. induction n as [|n IH]; intros [|y l]; cbn; try tauto.
  intros [->|H]; [now left | right; now apply IH].
Qed.

(** ** Null cells come last in a sorted frame *)

Lemma precedes_null key asc a b :
  isna (key a) = true -> precedes key asc a b -> isna (key b) = true.
Proof.
  unfold precedes, precedesb, isna.
  destruct (key a) as [x|], (key b) as [y|]; try tauto.
  intros Hx. destruct (isnan y); [reflexivity|]. cbn [orb].
  destruct x; try discriminate. destruct asc, y; discriminate.
Qed.

Lemma sorted_split key asc (s : DataFrame) :
  StronglySorted (precedes key asc) s ->
  s = List.filter (fun r => notna (key r)) s
      ++ List.filter (fun r => negb (notna (key r))) s.
Proof.
  induction 1 as [|a t Hs IH Ha]; [reflexivity|]. cbn.
  destruct (notna (key a)) eqn:Ea; cbn; [now rewrite <- IH|].
  apply negb_false_iff in Ea.
  assert (Hn : Forall (fun r => notna (key r) = false) t).
  { eapply Forall_impl; [exact Ha|]. intros b Hb. cbn.
    apply negb_false_iff. now apply (precedes_null key asc a b). }
  rewrite filter_none by exact Hn.
  rewrite filter_all; [reflexivity|].
  eapply Forall_impl; [exact Hn|]. intros b Hb. cbn in *. now rewrite Hb.
Qed.

Lemma slice_to_nonneg {A} (l : list A) (k : Z) :
  (0 <= k)%Z -> slice_to l k = firstn (Z.to_nat k) l.
Proof. intros H. unfold slice_to. destruct (Z.ltb_spec k 0); [lia | easy]. Qed.

Section Views.

Context {sorter : Sorter} {sorter_spec : SorterSpec sorter}.

Lemma head_top_view asc df k :
  (0 <= k)%Z ->
  TopView asc df k (head (sort_values change_24h asc df) k).
Proof using sorter_spec.
  intros Hk. unfold head. rewrite slice_to_nonneg by exact Hk.
  set (s := sort_values change_24h asc df).
  pose proof (sort_values_perm change_24h asc df) as Hp. fold s in Hp.
  pose proof (sort_values_sorted change_24h asc df) as Hs. fold s in Hs.
  pose proof (sorted_split _ _ _ Hs) as Hsplit.
  assert (Hc : length (List.filter (fun r => notna (change_24h r)) s)
               = count_notna df).
  { unfold count_notna. apply Permutation_length. now apply filter_perm. }
  split.
  - rewrite length_firstn, (Permutation_length Hp). lia.
  - exists (skipn (Z.to_nat k) s). rewrite firstn_skipn.
    split; [now symmetry | exact Hs].
  - intros Hle. rewrite Hsplit.
    rewrite firstn_app.
    replace (Z.to_nat k - _)%nat with 0%nat by lia.
    cbn [firstn]. rewrite app_nil_r.
    apply List.Forall_forall. intros r Hr.
    apply in_firstn in Hr. now apply filter_In in Hr as [_ ?].
  - intros Hge r Hr Hn. rewrite Hsplit.
    rewrite firstn_app. apply in_or_app. left.
    rewrite firstn_all2 by lia.
    apply filter_In. split; [|exact Hn].
    eapply Permutation_in; [symmetry; exact Hp | exact Hr].
Qed.

End Views.

(** ** [filter_by_price] *)

Lemma cell_ge_notna v m : cell_ge v m = true -> notna v = true.
Proof.
  destruct v as [p|]; [|discriminate]. cbn. intros H.
  unfold notna, isna. now rewrite (leb_nan_r _ _ H).
Qed.

Lemma cell_le_notna v m : cell_le v m = true -> notna v = true.
Proof.
  destruct v as [p|]; [|discriminate]. cbn. intros H.
  unfold notna, isna. now rewrite (leb_nan_l _ _ H).
Qed.

Lemma within_iff lo hi v :
  within lo hi v = true <->
  exists p, v = Some p /\ isnan p = false
            /\ (forall m, lo = Some m -> PyFloat.leb m p = true)
            /\ (forall m, hi = Some m -> PyFloat.leb p m = true).
Proof.
  unfold within, notna, isna. split.
  - destruct v as [p|]; [|discriminate]. cbn.
    intros H. apply andb_prop in H as [H Hhi]. apply andb_prop in H as [Hn Hlo].
    exists p. split; [reflexivity|]. split; [now apply negb_true_iff|].
    split; intros m ->; assumption.
  - intros (p & -> & Hn & Hlo & Hhi). rewrite Hn. cbn.
    apply andb_true_intro. split.
    + destruct lo as [m|]; [now apply Hlo | reflexivity].
    + destruct hi as [m|]; [now apply Hhi | reflexivity].
Qed.

End FrameFacts.
Import FrameFacts.

(** ** [filter_top_gainers], [filter_top_losers] *)

(** C3, as stated: the view has [min k (number of non-null changes)] rows.
    On a snapshot of one record without a change and [k = 1] the view holds
    that record: its length is 1, the stated length 0.  (The sorter is the
    stable one, the most favourable to the statement.) *)
Lemma top_gainers_length_counterexample :
  @filter_top_gainers stable_sorter frame_null_change 1 = frame_null_change
  /\ Z.of_nat (length (@filter_top_gainers stable_sorter frame_null_change 1))
     = 1%Z
  /\ Z.min 1 (Z.of_nat (count_notna frame_null_change)) = 0%Z.
Proof. repeat split. Qed.

(** The order among records of equal change is the sorting algorithm's:
    two sorters that both meet the library's promise give different top-1
    views of [frame_tied]. *)
Lemma top_view_tie_order :
  SorterSpec stable_sorter /\ SorterSpec reversing_sorter
  /\ @filter_top_losers stable_sorter frame_tied 1
     = [row "AAA" (Some (of_Z 1)) (Some (of_Z 2))]
  /\ @filter_top_losers reversing_sorter frame_tied 1
     = [row "CCC" (Some (of_Z 3)) (Some (of_Z 2))].
Proof.
  split; [exact stable_sorter_spec|]. split; [exact reversing_sorter_spec|].
  split; vm_compute; reflexivity.
Qed.

(** C3, amended. For every snapshot [df] and every [k >= 0],
    [filter_top_gainers df k] is the first [k] rows of [df] sorted
    descending by [change_24h] with the null changes last, and it has
    [min k (len df)] rows; so a record with a null change is in the view
    only when fewer than [k] records have a change, and then every record
    with a change is in it.  [filter_top_losers] is the same with the
    ascending sort (null changes last again).  The order among equal
    changes is the one the library's sort gives. *)
Theorem top_gainers_losers_spec
    (sorter : Sorter) (sorter_spec : SorterSpec sorter)
    (df : DataFrame) (k : Z) :
  (0 <= k)%Z ->
  filter_top_gainers df k
  = firstn (Z.to_nat k) (sort_values change_24h false df)
  /\ TopView false df k (filter_top_gainers df k)
  /\ filter_top_losers df k
     = firstn (Z.to_nat k) (sort_values change_24h true df)
  /\ TopView true df k (filter_top_losers df k).
Proof.
  intros Hk. unfold filter_top_gainers, filter_top_losers.
  repeat split; try (unfold head; now apply slice_to_nonneg);
    now apply head_top_view.
Qed.

Lemma top_gainers_losers_witness :
  (0 <= 2)%Z
  /\ SorterSpec stable_sorter
  /\ @filter_top_gainers stable_sorter frame_tied 2
     = firstn (Z.to_nat 2) (@sort_values stable_sorter change_24h false frame_tied)
  /\ TopView false frame_tied 2 (@filter_top_gainers stable_sorter frame_tied 2)
  /\ @filter_top_losers stable_sorter frame_tied 2
     = firstn (Z.to_nat 2) (@sort_values stable_sorter change_24h true frame_tied)
  /\ TopView true frame_tied 2 (@filter_top_losers stable_sorter frame_tied 2).
Proof.
  split; [lia|]. split; [exact stable_sorter_spec|].
  apply (top_gainers_losers_spec stable_sorter stable_sorter_spec frame_tied 2).
  lia.
Defined.

(** C4. For every snapshot and optional bounds, [filter_by_price] keeps, in
    their order, exactly the records whose price is not null and lies
    within the bounds given, both inclusive, a missing bound leaving its
    side open: with at least one bound every record with a null price and
    every record outside the bounds is left out.  With no bound the
    snapshot is returned as it is. *)
Theorem filter_by_price_spec (df : DataFrame) (lo hi : option float) :
  filter_by_price df lo hi
  = (if bounded lo hi
     then List.filter (fun r => within lo hi (price r)) df
     else df)
  /\ (forall r,
        In r (filter_by_price df lo hi) <->
        In r df
        /\ (bounded lo hi = true ->
            exists p, price r = Some p /\ isnan p = false
                      /\ (forall m, lo = Some m -> PyFloat.leb m p = true)
                      /\ (forall m, hi = Some m -> PyFloat.leb p m = true))).
Proof.
  assert (E : filter_by_price df lo hi
              = if bounded lo hi
                then List.filter (fun r => within lo hi (price r)) df
                else df).
  { unfold filter_by_price, within.
    destruct lo as [m|], hi as [n|]; cbn [bounded].
    - rewrite filter_filter. apply filter_ext'. intros r.
      destruct (cell_ge (price r) m) eqn:E1; cbn.
      + now rewrite (cell_ge_notna _ _ E1).
      + now rewrite andb_false_r.
    - apply filter_ext'. intros r. rewrite andb_true_r.
      destruct (cell_ge (price r) m) eqn:E1; cbn.
      + now rewrite (cell_ge_notna _ _ E1).
      + now rewrite andb_false_r.
    - apply filter_ext'. intros r. rewrite andb_true_r.
      destruct (cell_le (price r) n) eqn:E1; cbn.
      + now rewrite (cell_le_notna _ _ E1).
      + now rewrite andb_false_r.
    - reflexivity. }
  split; [exact E|]. intros r. rewrite E.
  destruct (bounded lo hi).
  - rewrite filter_In, within_iff. tauto.
  - intuition discriminate.
Qed.

(* ===================================================================== *)
(** * Statements: [save_to_csv] *)
(* ===================================================================== *)

Module EffectFacts.

Lemma log_nil w : log w [] = w.
Proof. destruct w. unfold log. cbn. now rewrite app_nil_r. Qed.

Lemma log_log w evs evs' : log (log w evs) evs' = log w (evs ++ evs').
Proof. unfold log. cbn. now rewrite app_assoc. Qed.

Lemma emit_run e w : emit e w = (log w [e], Ok tt).
Proof. reflexivity. Qed.

Lemma print_run m w : print m w = (log w [Print m], Ok tt).
Proof. reflexivity. Qed.

Lemma call_run {A} e (r : result A) w : call e r w = (log w [e], r).
Proof. reflexivity. Qed.

Lemma mbind_run {A B} (m : M A) (k : A -> M B) w :
  mbind m k w
  = match m w with
    | (w', Ok a) => k a w'
    | (w', Raise e) => (w', Raise e)
    end.
Proof. reflexivity. Qed.

(** Rewriting a program run to its outcome, one command at a time. *)
Ltac step :=
  repeat first
    [ rewrite mbind_run
    | rewrite call_run
    | rewrite print_run
    | rewrite emit_run
    | rewrite log_log
    | progress cbn [app isinstance issubclass mro existsb exn_class_eqb
                    exn_cls orb returned] ].

Lemma save_to_csv_run records path w :
  records <> [] ->
  save_to_csv records path w = (saved records path w, Ok tt).
Proof.
  destruct records as [|r records]; [congruence|]. intros _.
  unfold save_to_csv, saved, appended, rows_of.
  unfold mbind, now_utc_iso, path_exists, to_csv, append_lines.
  cbn [fs clock reads trace].
  destruct (fs w !! path) as [old|]; reflexivity.
Qed.

End EffectFacts.
Import EffectFacts.

(** C5. [save_to_csv records path] does nothing when [records] is empty:
    the world, and so the file or its absence, is as before.  Otherwise it
    reads the clock once, stamps every row of the batch with that one UTC
    instant in ISO form, and appends the rows to the file, after a header
    line exactly when the path does not exist as the call is made; nothing
    else changes.  The test is made on each call: after a first batch went
    to a fresh path the second one adds rows and no header, and when the
    file has gone in between the header is written again. *)
Theorem save_to_csv_spec (records : list record) (path : str) (w : world) :
  save_to_csv [] path w = (w, Ok tt)
  /\ (records <> [] ->
      save_to_csv records path w = (saved records path w, Ok tt)
      /\ fs (saved records path w) !! path
         = Some (default [] (fs w !! path)
                 ++ (if bool_decide (fs w !! path = None)
                     then [Header csv_columns] else [])
                 ++ map (fun r => Row r (IsoUtc (clock w (reads w)))) records)
      /\ (forall other, other <> path ->
          fs (saved records path w) !! other = fs w !! other)
      /\ reads (saved records path w) = S (reads w)
      /\ trace (saved records path w) = trace w)
  /\ (forall batch2,
        records <> [] -> batch2 <> [] -> fs w !! path = None ->
        fs (saved batch2 path (saved records path w)) !! path
        = Some (Header csv_columns
                :: rows_of records (IsoUtc (clock w (reads w)))
                ++ rows_of batch2 (IsoUtc (clock w (S (reads w))))))
  /\ (forall batch2,
        records <> [] -> batch2 <> [] -> fs w !! path = None ->
        let w1 := saved records path w in
        let gone := mk_world (delete path (fs w1)) (clock w1) (reads w1)
                      (trace w1) in
        fs (saved batch2 path gone) !! path
        = Some (Header csv_columns
                :: rows_of batch2 (IsoUtc (clock w (S (reads w)))))).
Proof.
  split; [reflexivity|]. split; [|split].
  - intros Hne. split; [now apply save_to_csv_run|].
    unfold saved, appended, rows_of. cbn [fs clock reads trace].
    rewrite lookup_insert_eq.
    split; [|split; [|split]]; try reflexivity.
    + destruct (fs w !! path); reflexivity.
    + intros other Ho. now rewrite lookup_insert_ne.
  - intros batch2 _ _ Hnone. unfold saved. cbn [fs clock reads trace].
    rewrite !lookup_insert_eq. f_equal. rewrite Hnone.
    unfold appended. cbn [default app]. reflexivity.
  - intros batch2 _ _ Hnone. cbn zeta. unfold saved. cbn [fs clock reads trace].
    rewrite !lookup_insert_eq, lookup_delete_eq. reflexivity.
Qed.

Lemma save_to_csv_witness :
  frame_tied <> []
  /\ save_to_csv frame_tied sample_path sample_world
     = (saved frame_tied sample_path sample_world, Ok tt).
Proof.
  split; [discriminate|].
  apply (save_to_csv_spec frame_tied sample_path sample_world).
  discriminate.
Defined.

(* ===================================================================== *)
(** * Statements: [scrape_top_n] and the polling loop *)
(* ===================================================================== *)

Module ScraperFacts.

(** ** A cycle that times out *)

(** ** Runs *)

Lemma scrape_timeout_run pg n t w b :
  timed_out pg -> screenshot_r pg = Ok b ->
  scrape_top_n pg n t w = (log w (timeout_events pg t), Ok []).
Proof.
  intros Ht Hs. unfold scrape_top_n, timeout_events, wait_events.
  destruct Ht as [e H1 H2 H3 He | e H1 H2 H3 H4 He].
  - unfold try_catch. step. rewrite H1. step. rewrite H2. step.
    rewrite H3. rewrite He. step. rewrite Hs. step. reflexivity.
  - unfold try_catch. step. rewrite H1. step. rewrite H2. step.
    rewrite H3. step. rewrite H4. rewrite He. step. rewrite Hs. step.
    reflexivity.
Qed.

Lemma split_char_cons sep s :
  exists w ws, split_char sep s = w :: ws.
Proof.
  induction s as [|c s (w & ws & IH)]; cbn; [eauto|].
  destruct (c =? sep)%N; [eauto|]. rewrite IH. eauto.
Qed.

Lemma cell_text_run cols i w : cell_text cols i w = (w, cell cols i).
Proof. unfold cell_text, cell. now destruct (nth_error cols i). Qed.

Lemma extract_row_run i row w :
  extract_row i row w
  = (log w [FindCells i],
     match row_verdict row with
     | Kept r => Ok (Some r)
     | Short => Ok None
     | Failed e => Raise e
     end).
Proof.
  unfold extract_row, row_verdict. step.
  destruct (row_cells row) as [cols|e]; [|reflexivity].
  destruct (length cols <? 8)%nat; [reflexivity|].
  unfold read_cells. rewrite mbind_run, cell_text_run.
  destruct (cell cols 2) as [t2|e]; [|reflexivity]. cbn [bind].
  destruct (split_char_cons 10%N (strip t2)) as (nm & ws & Hsp).
  unfold record_of. rewrite Hsp. unfold item at 1. cbn [nth_error nth].
  unfold ret at 1. rewrite mbind_run.
  assert (Hsym : forall w',
    (if (1 <? length (nm :: ws))%nat then item (nm :: ws) 1 else ret []) w'
    = (w', Ok (nth 1 (nm :: ws) []))).
  { intros w'. destruct ws; reflexivity. }
  rewrite mbind_run, Hsym.
  rewrite mbind_run, cell_text_run.
  destruct (cell cols 3) as [t3|e]; [|reflexivity]. cbn [bind].
  rewrite mbind_run, cell_text_run.
  destruct (cell cols 4) as [t4|e]; [|reflexivity]. cbn [bind].
  rewrite mbind_run, cell_text_run.
  destruct (cell cols 7) as [t7|e]; [|reflexivity]. cbn [bind].
  rewrite mbind_run, cell_text_run.
  destruct (cell cols 1) as [t1|e]; [|reflexivity]. cbn [bind].
  unfold mbind, lift, ret.
  now rewrite !parse_money_value, parse_percent_value.
Qed.

Lemma kept_cons row rows :
  kept (row :: rows)
  = match row_verdict row with
    | Kept r => r :: kept rows
    | _ => kept rows
    end.
Proof. unfold kept. cbn. now destruct (row_verdict row). Qed.

Lemma for_rows_run rows : forall i acc w,
  Forall contained rows ->
  for_rows i rows acc w = (log w (rows_trace i rows), Ok (acc ++ kept rows)).
Proof.
  induction rows as [|row rows IH]; intros i acc w Hc.
  - cbn. now rewrite log_nil, app_nil_r.
  - apply Forall_cons_1 in Hc as [Hrow Hrows].
    cbn [for_rows rows_trace]. rewrite kept_cons.
    rewrite mbind_run. unfold try_catch at 1.
    rewrite mbind_run, extract_row_run.
    destruct (row_verdict row) as [r| |e] eqn:Ev.
    + unfold ret at 1. rewrite IH by exact Hrows. rewrite log_log.
      cbn [app]. now rewrite <- app_assoc.
    + unfold ret at 1. rewrite IH by exact Hrows. rewrite log_log.
      reflexivity.
    + rewrite (Hrow e Ev). step. unfold ret at 1.
      rewrite IH by exact Hrows. rewrite log_log. reflexivity.
Qed.

Lemma scrape_ready_run pg n t rows w :
  refresh_r pg = Ok tt -> script_r pg = Ok tt ->
  wait_rows_r pg = Ok tt -> wait_price_r pg = Ok tt ->
  rows_r pg = Ok rows ->
  Forall contained (slice_to rows n) ->
  scrape_top_n pg n t w
  = (log w (ready_events t ++ rows_trace 0 (slice_to rows n)),
     Ok (kept (slice_to rows n))).
Proof.
  intros H1 H2 H3 H4 H5 Hc. unfold scrape_top_n, try_catch. step.
  rewrite H1. step. rewrite H2. step. rewrite H3. step. rewrite H4. step.
  unfold ret at 1. step. rewrite H5.
  rewrite for_rows_run by exact Hc. step. reflexivity.
Qed.

(** ** The trace of the loop over rows *)

Lemma rows_trace_failed rows : forall i j e,
  In (Print (MsgRowFailed j e)) (rows_trace i rows) <->
  exists row, (i <= j)%nat /\ nth_error rows (j - i) = Some row
              /\ row_verdict row = Failed e.
Proof.
  induction rows as [|row rows IH]; intros i j e; cbn [rows_trace].
  - split; [intros []|]. intros (row & _ & H & _). now destruct (j - i)%nat.
  - cbn [In]. rewrite in_app_iff, IH. split.
    + intros [H|[H|(r & Hle & Hn & Hv)]]; [discriminate| |].
      * destruct (row_verdict row) eqn:Ev; try (now destruct H).
        destruct H as [H|[]]. injection H as -> ->.
        exists row. rewrite Nat.sub_diag. cbn. auto.
      * exists r. split; [lia|]. split; [|exact Hv].
        replace (j - i)%nat with (S (j - S i)) by lia. exact Hn.
    + intros (r & Hle & Hn & Hv). right.
      destruct (Nat.eq_dec i j) as [->|Hne].
      * left. rewrite Nat.sub_diag in Hn. injection Hn as ->.
        rewrite Hv. now left.
      * right. exists r. split; [lia|]. split; [|exact Hv].
        replace (j - i)%nat with (S (j - S i)) in Hn by lia. exact Hn.
Qed.

Lemma rows_trace_cells rows : forall i j,
  In (FindCells j) (rows_trace i rows) <-> (i <= j < i + length rows)%nat.
Proof.
  induction rows as [|row rows IH]; intros i j; cbn [rows_trace length].
  - split; [intros [] | lia].
  - cbn [In]. rewrite in_app_iff, IH. split.
    + intros [H|[H|H]]; [injection H as ->; lia | | lia].
      destruct (row_verdict row); now destruct H.
    + intros H. destruct (Nat.eq_dec i j) as [->|Hne]; [now left|].
      right. right. lia.
Qed.

Lemma kept_length rows : (length (kept rows) <= length rows)%nat.
Proof.
  induction rows as [|row rows IH]; [cbn; lia|].
  rewrite kept_cons. destruct (row_verdict row); cbn [length]; lia.
Qed.

End ScraperFacts.
Import ScraperFacts.

Module LoopFacts.

Lemma quits_app evs evs' : quits (evs ++ evs') = (quits evs + quits evs')%nat.
Proof. unfold quits. now rewrite List.filter_app, length_app. Qed.

Lemma quiet_ret {A} (a : A) : quiet (ret a).
Proof.
  intros w w' r [= <- <-]. exists []. now rewrite app_nil_r.
Qed.

Lemma quiet_raise {A} (e : exn) : quiet (@raise A e).
Proof.
  intros w w' r [= <- <-]. exists []. now rewrite app_nil_r.
Qed.

Lemma quiet_lift {A} (x : result A) : quiet (lift x).
Proof.
  intros w w' r [= <- <-]. exists []. now rewrite app_nil_r.
Qed.

Lemma quiet_emit e : is_quit e = false -> quiet (emit e).
Proof.
  intros He w w' r [= <- <-]. exists [e]. split; [reflexivity|].
  unfold quits. cbn. now rewrite He.
Qed.

Lemma quiet_bind {A B} (m : M A) (k : A -> M B) :
  quiet m -> (forall a, quiet (k a)) -> quiet (mbind m k).
Proof.
  intros Hm Hk w w' r. unfold mbind.
  destruct (m w) as [w1 [a|e]] eqn:E; intros H.
  - destruct (Hm _ _ _ E) as (evs1 & T1 & Q1).
    destruct (Hk a _ _ _ H) as (evs2 & T2 & Q2).
    exists (evs1 ++ evs2). rewrite T2, T1, app_assoc, quits_app. split; [easy|lia].
  - injection H as <- <-. now apply (Hm _ _ _ E).
Qed.

Lemma quiet_try_catch {A} (m : M A) c (h : exn -> M A) :
  quiet m -> (forall e, quiet (h e)) -> quiet (try_catch m c h).
Proof.
  intros Hm Hh w w' r. unfold try_catch.
  destruct (m w) as [w1 [a|e]] eqn:E; intros H.
  - injection H as <- <-. now apply (Hm _ _ _ E).
  - destruct (isinstance e c).
    + destruct (Hm _ _ _ E) as (evs1 & T1 & Q1).
      destruct (Hh e _ _ _ H) as (evs2 & T2 & Q2).
      exists (evs1 ++ evs2). rewrite T2, T1, app_assoc, quits_app.
      split; [easy|lia].
    + injection H as <- <-. now apply (Hm _ _ _ E).
Qed.

Lemma quiet_call {A} e (x : result A) : is_quit e = false -> quiet (call e x).
Proof.
  intros He. apply quiet_bind; [now apply quiet_emit | intros; apply quiet_lift].
Qed.

Lemma quiet_print m : quiet (print m).
Proof. now apply quiet_emit. Qed.

Lemma quiet_same_trace {A} (m : M A) :
  (forall w, trace (fst (m w)) = trace w) -> quiet m.
Proof.
  intros H w w' r E. exists []. rewrite app_nil_r. split; [|reflexivity].
  specialize (H w). now rewrite E in H.
Qed.

Lemma quiet_save_to_csv records path : quiet (save_to_csv records path).
Proof.
  apply quiet_same_trace. intros w. destruct records; reflexivity.
Qed.

Create HintDb quiet.
#[local] Hint Resolve quiet_ret quiet_raise quiet_lift quiet_print
  quiet_save_to_csv : quiet.
#[local] Hint Extern 2 (quiet (mbind _ _)) =>
  apply quiet_bind; [|intros] : quiet.
#[local] Hint Extern 2 (quiet (try_catch _ _ _)) =>
  apply quiet_try_catch; [|intros] : quiet.
#[local] Hint Extern 2 (quiet (call _ _)) =>
  apply quiet_call; reflexivity : quiet.
#[local] Hint Extern 3 (quiet (if ?b then _ else _)) => destruct b : quiet.
#[local] Hint Extern 3 (quiet (match ?x with _ => _ end)) => destruct x : quiet.

Lemma quiet_cell_text cols i : quiet (cell_text cols i).
Proof. unfold cell_text. auto with quiet. Qed.

Lemma quiet_item l i : quiet (item l i).
Proof. unfold item. auto with quiet. Qed.

#[local] Hint Resolve quiet_cell_text quiet_item : quiet.

Lemma quiet_extract_row i row : quiet (extract_row i row).
Proof. unfold extract_row. auto 30 with quiet. Qed.

#[local] Hint Resolve quiet_extract_row : quiet.

Lemma quiet_for_rows rows : forall i acc, quiet (for_rows i rows acc).
Proof.
  induction rows as [|row rows IH]; intros i acc; cbn [for_rows];
    auto 10 with quiet.
Qed.

#[local] Hint Resolve quiet_for_rows : quiet.

Lemma quiet_scrape_top_n pg n t : quiet (scrape_top_n pg n t).
Proof. unfold scrape_top_n. auto 20 with quiet. Qed.

Lemma quiet_build_driver ss h : quiet (build_driver ss h).
Proof. unfold build_driver. auto 20 with quiet. Qed.

Lemma quiet_sleep s r : quiet (sleep s r).
Proof. unfold sleep. auto with quiet. Qed.

#[local] Hint Resolve quiet_scrape_top_n quiet_build_driver quiet_sleep : quiet.

Section QuietLoop.

Context {sorter : Sorter}.

Lemma quiet_render_views a df : quiet (render_views a df).
Proof. unfold render_views. auto 20 with quiet. Qed.

#[local] Hint Resolve quiet_render_views : quiet.

Lemma quiet_cycle_body a pg : quiet (cycle_body a pg).
Proof. unfold cycle_body. auto 20 with quiet. Qed.

#[local] Hint Resolve quiet_cycle_body : quiet.

Lemma quiet_loop a cycles : quiet (loop a cycles).
Proof.
  induction cycles as [|c rest IH]; cbn [loop]; auto 20 with quiet.
Qed.

End QuietLoop.

(** ** Runs of the loop and of [main] *)

Lemma classic_running (r : result status) : r = Ok Running \/ r <> Ok Running.
Proof. destruct r as [[]|e]; (now left) || (right; congruence). Qed.

Section Runs.

Context {sorter : Sorter}.

Lemma render_views_run a df w :
  render_views a df w
  = (log w (snapshot_events df
            ++ (if or_truthy (min_price a) (max_price a)
                then price_view_events df (min_price a) (max_price a)
                else [])
            ++ top_events a df),
     Ok tt).
Proof.
  unfold render_views, snapshot_events, price_view_events, top_events.
  step.
  destruct (or_truthy _ _); [destruct (Frame.empty _); cbn [negb]|];
    unfold ret; step;
    destruct (truthy_int (show_gainers a)); step;
    destruct (truthy_int (show_losers a)); step;
    rewrite ?app_nil_r; reflexivity.
Qed.

Lemma cycle_body_empty a pg w w1 :
  scrape_top_n pg (topn a) (timeout a) w = (w1, Ok []) ->
  cycle_body a pg w = (log w1 [Print MsgNoData], Ok tt).
Proof. intros H. unfold cycle_body. now rewrite mbind_run, H. Qed.

Lemma cycle_body_raise a pg w w1 e :
  scrape_top_n pg (topn a) (timeout a) w = (w1, Raise e) ->
  cycle_body a pg w = (w1, Raise e).
Proof. intros H. unfold cycle_body. now rewrite mbind_run, H. Qed.

Lemma loop_caught a c rest w w1 r :
  cycle_body a (cycle_page c) w = (w1, r) -> caught r ->
  loop a (c :: rest) w
  = idle a c rest (log w1 (err_events r ++ [Print (MsgWaiting (interval a))])).
Proof.
  intros Hb Hc. cbn [loop]. fold (idle a c rest).
  rewrite mbind_run. unfold try_catch at 1. rewrite Hb.
  destruct r as [[]|e]; cbn [err_events].
  - step. reflexivity.
  - rewrite (Hc e eq_refl). step. reflexivity.
Qed.

Lemma loop_escape a c rest w w1 e :
  cycle_body a (cycle_page c) w = (w1, Raise e) ->
  isinstance e Exception = false ->
  loop a (c :: rest) w = (w1, Raise e).
Proof.
  intros Hb He. cbn [loop]. rewrite mbind_run. unfold try_catch at 1.
  now rewrite Hb, He.
Qed.

Lemma idle_sleeps a c rest w :
  (0 <= interval a)%Z -> sleep_r c = Ok tt ->
  idle a c rest w = loop a rest (log w [Sleep (interval a)]).
Proof.
  intros Hi Hs. unfold idle, try_catch, sleep.
  destruct (Z.ltb_spec (interval a) 0); [lia|].
  step. rewrite Hs. step. reflexivity.
Qed.

Lemma idle_interrupted a c rest w e :
  (0 <= interval a)%Z -> sleep_r c = Raise e ->
  isinstance e KeyboardInterrupt = true ->
  idle a c rest w
  = (log w [Sleep (interval a); Print MsgStopped], Ok Finished).
Proof.
  intros Hi Hs He. unfold idle, try_catch, sleep.
  destruct (Z.ltb_spec (interval a) 0); [lia|].
  step. rewrite Hs, He. step. reflexivity.
Qed.

Lemma idle_raises a c rest w e :
  (0 <= interval a)%Z -> sleep_r c = Raise e ->
  isinstance e KeyboardInterrupt = false ->
  idle a c rest w = (log w [Sleep (interval a)], Raise e).
Proof.
  intros Hi Hs He. unfold idle, try_catch, sleep.
  destruct (Z.ltb_spec (interval a) 0); [lia|].
  step. now rewrite Hs, He.
Qed.

Lemma main_not_acquired a ss cycles w w0 e :
  build_driver ss (headless a) w = (w0, Raise e) ->
  main a ss cycles w
  = if isinstance e WebDriverException
    then (log w0 [Print (MsgWebDriverError e)], Ok Finished)
    else (w0, Raise e).
Proof.
  intros Hb. unfold main. rewrite Hb. unfold try_catch, lift, cleanup.
  destruct (isinstance e WebDriverException); step; reflexivity.
Qed.

Lemma main_running a ss cycles w w0 d w1 :
  build_driver ss (headless a) w = (w0, Ok d) ->
  loop a cycles (log w0 [Print MsgBrowserReady]) = (w1, Ok Running) ->
  main a ss cycles w = (w1, Ok Running).
Proof.
  intros Hb Hl. unfold main. rewrite Hb. step. now rewrite Hl.
Qed.

Lemma main_left a ss cycles w w0 d w1 r :
  build_driver ss (headless a) w = (w0, Ok d) ->
  loop a cycles (log w0 [Print MsgBrowserReady]) = (w1, r) ->
  r <> Ok Running ->
  main a ss cycles w = closing ss w1 r.
Proof.
  intros Hb Hl Hr. unfold main, closing. rewrite Hb. step. rewrite Hl.
  unfold try_catch, lift, cleanup.
  destruct r as [[]|e]; [congruence| |].
  - step. destruct (quit_r ss); step; reflexivity.
  - destruct (isinstance e WebDriverException); step; unfold ret; step;
      destruct (quit_r ss); step; reflexivity.
Qed.

End Runs.

(** ** Facts about the samples, and about exits *)

Lemma slow_page_timed_out : timed_out slow_page.
Proof. now apply (timed_out_rows slow_page timeout_exn). Qed.

Lemma sample_page_contained : Forall contained (slice_to sample_rows 10).
Proof.
  repeat constructor; intros e; vm_compute; intros [= <-]; reflexivity.
Qed.

Lemma webdriver_is_exception (e : exn) :
  isinstance e WebDriverException = true -> isinstance e Exception = true.
Proof. destruct e as [[] msg]; cbn; congruence. Qed.

Lemma crashed_cycle_body (sorter : Sorter) (w : world) :
  cycle_body sample_args crashed_page w = (log w [Refresh], Raise crashed).
Proof. reflexivity. Qed.

Lemma crashed_loop_running (sorter : Sorter) (n : nat) : forall w,
  snd (loop sample_args (repeat crashed_cycle n) w) = Ok Running
  /\ quits (trace (fst (loop sample_args (repeat crashed_cycle n) w)))
     = quits (trace w).
Proof.
  induction n as [|n IH]; intros w; [split; reflexivity|].
  cbn [repeat].
  rewrite (loop_caught sample_args crashed_cycle _ w _ _
             (crashed_cycle_body sorter w)) by (intros e [= <-]; reflexivity).
  rewrite idle_sleeps by (reflexivity || discriminate).
  destruct (IH (log (log (log w [Refresh])
                       (err_events (Raise crashed)
                        ++ [Print (MsgWaiting (interval sample_args))]))
                  [Sleep (interval sample_args)])) as [IH1 IH2].
  split; [exact IH1|]. rewrite IH2. cbn [log trace].
  rewrite !quits_app. cbn. lia.
Qed.

Lemma main_quits (sorter : Sorter) a ss cycles w w' r :
  main a ss cycles w = (w', r) -> r <> Ok Running ->
  exists evs,
    trace w' = trace w ++ evs
    /\ quits evs
       = if returned (snd (build_driver ss (headless a) w)) then 1%nat
         else 0%nat.
Proof.
  intros Hm Hr.
  destruct (build_driver ss (headless a) w) as [w0 [d|e]] eqn:Hb;
    cbn [snd returned].
  - destruct (quiet_build_driver _ _ _ _ _ Hb) as (evs0 & T0 & Q0).
    destruct (loop a cycles (log w0 [Print MsgBrowserReady])) as [w1 r1] eqn:Hl.
    destruct (quiet_loop _ _ _ _ _ Hl) as (evs1 & T1 & Q1).
    cbn [log trace] in T1. rewrite T0 in T1.
    destruct (classic_running r1) as [->|Hr1].
    { rewrite (main_running a ss cycles w w0 d w1 Hb Hl) in Hm.
      injection Hm as <- <-. congruence. }
    rewrite (main_left a ss cycles w w0 d w1 r1 Hb Hl Hr1) in Hm.
    unfold closing in Hm.
    destruct r1 as [s|e];
      [|destruct (isinstance e WebDriverException)];
      destruct (quit_r ss); injection Hm as <- <-; cbn [log trace];
      rewrite T1, <- !app_assoc; eexists; (split; [reflexivity|]);
      rewrite !quits_app, Q0, Q1; reflexivity.
  - rewrite (main_not_acquired a ss cycles w w0 e Hb) in Hm.
    destruct (quiet_build_driver _ _ _ _ _ Hb) as (evs0 & T0 & Q0).
    destruct (isinstance e WebDriverException); injection Hm as <- <-;
      cbn [log trace]; rewrite T0, <- ?app_assoc; eexists;
      (split; [reflexivity|]); rewrite ?quits_app, Q0; reflexivity.
Qed.

Lemma not_exception_not_webdriver (e : exn) :
  isinstance e Exception = false -> isinstance e WebDriverException = false.
Proof. destruct e as [[] msg]; cbn; congruence. Qed.

End LoopFacts.
Import LoopFacts.

(** ** Cycles that time out, rows that fail *)

(** C6. In a cycle in which the readiness condition is not met within the
    timeout, [scrape_top_n] has a screenshot taken and, the screenshot
    taken, returns the empty list; the loop prints the notice of a cycle
    without data, leaves the file system as it was, and goes on to the
    sleep and from there to the next cycle.  Should taking the screenshot
    itself raise an [Exception], the cycle is contained all the same:
    nothing is persisted and the loop goes on to the sleep. *)
Theorem scrape_timeout_spec (sorter : Sorter) (a : args) (c : cycle)
    (rest : list cycle) (w : world) :
  timed_out (cycle_page c) ->
  let pg := cycle_page c in
  let waited := wait_events pg (timeout a) in
  (forall b, screenshot_r pg = Ok b ->
     let w1 := log w (waited ++ [SaveScreenshot screenshot_file;
                                 Print MsgTimeout]) in
     scrape_top_n pg (topn a) (timeout a) w = (w1, Ok [])
     /\ cycle_body a pg w = (log w1 [Print MsgNoData], Ok tt)
     /\ loop a (c :: rest) w
        = idle a c rest
            (log w1 [Print MsgNoData; Print (MsgWaiting (interval a))])
     /\ fs (log w1 [Print MsgNoData; Print (MsgWaiting (interval a))]) = fs w
     /\ ((0 <= interval a)%Z -> sleep_r c = Ok tt ->
         loop a (c :: rest) w
         = loop a rest
             (log w1 [Print MsgNoData; Print (MsgWaiting (interval a));
                      Sleep (interval a)])))
  /\ (forall e, screenshot_r pg = Raise e -> isinstance e Exception = true ->
      let w1 := log w (waited ++ [SaveScreenshot screenshot_file]) in
      loop a (c :: rest) w
      = idle a c rest
          (log w1 [Print (MsgScrapeError e); Print (MsgWaiting (interval a))])
      /\ fs w1 = fs w).
Proof.
  intros Ht pg waited. subst pg waited. set (pg := cycle_page c) in *. split.
  - intros b Hs w1.
    pose proof (scrape_timeout_run pg (topn a) (timeout a) w b Ht Hs) as Hrun.
    unfold timeout_events in Hrun. fold w1 in Hrun.
    pose proof (cycle_body_empty a pg w w1 Hrun) as Hbody.
    assert (Hloop : loop a (c :: rest) w
                    = idle a c rest
                        (log w1 [Print MsgNoData;
                                 Print (MsgWaiting (interval a))])).
    { rewrite (loop_caught a c rest w _ _ Hbody) by (intros e; discriminate).
      now rewrite log_log. }
    repeat split; try assumption.
    intros Hi Hsl. rewrite Hloop, idle_sleeps by assumption.
    now rewrite log_log.
  - intros e Hs He w1.
    assert (Hrun : scrape_top_n pg (topn a) (timeout a) w = (w1, Raise e)).
    { unfold scrape_top_n, try_catch, w1, wait_events.
      destruct Ht as [x H1 H2 H3 Hx | x H1 H2 H3 H4 Hx].
      - step. rewrite H1. step. rewrite H2. step. rewrite H3, Hx. step.
        now rewrite Hs.
      - step. rewrite H1. step. rewrite H2. step. rewrite H3. step.
        rewrite H4, Hx. step. now rewrite Hs. }
    split; [|reflexivity].
    rewrite (loop_caught a c rest w _ _ (cycle_body_raise a pg w w1 e Hrun)).
    + reflexivity.
    + intros x [= <-]. exact He.
Qed.

Lemma scrape_timeout_witness :
  timed_out slow_page
  /\ (0 <= interval sample_args)%Z
  /\ @loop stable_sorter sample_args [slow_cycle; sample_cycle] sample_world
     = @loop stable_sorter sample_args [sample_cycle]
         (log sample_world
            (wait_events slow_page 30
             ++ [SaveScreenshot screenshot_file; Print MsgTimeout;
                 Print MsgNoData; Print (MsgWaiting 10); Sleep 10])).
Proof.
  split; [exact slow_page_timed_out|]. split; [discriminate|].
  destruct (scrape_timeout_spec stable_sorter sample_args slow_cycle
              [sample_cycle] sample_world slow_page_timed_out) as [H _].
  destruct (H true eq_refl) as (_ & _ & _ & _ & Hloop).
  rewrite Hloop; [|discriminate|reflexivity].
  now rewrite log_log.
Defined.

(** C7. On a page that is ready, [scrape_top_n] goes through the rows
    [rows[:n]] in order (for [n >= 0]: the first [n], or all when there
    are fewer) and returns the records of the rows kept, in the order of
    the rows.  A row with fewer than eight cells adds no record and no
    output; a row whose extraction raises an [Exception] adds no record
    and one warning that carries the index of the row; either way the rows
    after it are gone through as well. *)
Theorem scrape_rows_spec (pg : page) (n t : Z) (rows : list row_dom)
    (w : world) :
  refresh_r pg = Ok tt -> script_r pg = Ok tt ->
  wait_rows_r pg = Ok tt -> wait_price_r pg = Ok tt ->
  rows_r pg = Ok rows ->
  let taken := slice_to rows n in
  Forall contained taken ->
  scrape_top_n pg n t w
  = (log w (ready_events t ++ rows_trace 0 taken), Ok (kept taken))
  /\ ((0 <= n)%Z ->
      taken = firstn (Z.to_nat n) rows /\ (length taken <= Z.to_nat n)%nat)
  /\ (length (kept taken) <= length taken)%nat
  /\ (forall j, In (FindCells j) (rows_trace 0 taken) <->
                (j < length taken)%nat)
  /\ (forall j e, In (Print (MsgRowFailed j e)) (rows_trace 0 taken) <->
                  exists row, nth_error taken j = Some row
                              /\ row_verdict row = Failed e)
  /\ (forall m, In (Print m) (rows_trace 0 taken) ->
                exists j e, m = MsgRowFailed j e).
Proof.
  intros H1 H2 H3 H4 H5 taken Hc.
  split; [now apply scrape_ready_run|].
  split.
  { intros Hn. unfold taken. rewrite slice_to_nonneg by exact Hn.
    split; [reflexivity|]. rewrite length_firstn. lia. }
  split; [apply kept_length|].
  split.
  { intros j. rewrite rows_trace_cells. lia. }
  split.
  { intros j e. rewrite rows_trace_failed. rewrite Nat.sub_0_r.
    split; intros (row & H); exists row; intuition lia. }
  intros m. generalize 0%nat. clear Hc.
  induction taken as [|row l IH]; intros i; cbn [rows_trace In].
  - intros [].
  - rewrite in_app_iff. intros [H|[H|H]]; [discriminate| |now apply (IH (S i))].
    destruct (row_verdict row); try (now destruct H).
    destruct H as [[= <-]|[]]. eauto.
Qed.

Lemma scrape_rows_witness :
  scrape_top_n sample_page 10 30 sample_world
  = (log sample_world
       (ready_events 30
        ++ [FindCells 0; FindCells 1; FindCells 2;
            Print (MsgRowFailed 2 stale); FindCells 3]),
     Ok sample_records).
Proof.
  refine (eq_trans
    (proj1 (scrape_rows_spec sample_page 10 30 _ sample_world
              eq_refl eq_refl eq_refl eq_refl eq_refl sample_page_contained))
    _).
  vm_compute. reflexivity.
Defined.

(** C8, as stated: a [WebDriverException] while the tracker runs ends the
    loop.  With the session acquired and the browser gone in every cycle,
    each cycle logs the error as a scrape error and the loop sleeps and
    goes on: after any number of cycles [main] is still in the loop and
    has not called [driver.quit()]. *)
Lemma webdriver_error_counterexample :
  isinstance crashed WebDriverException = true
  /\ trace (fst (@main stable_sorter sample_args ok_session
                   [crashed_cycle; crashed_cycle] sample_world))
     = [InstallDriver; StartChrome (chrome_arguments true (py "1920,1080"));
        Get home_url; Print MsgBrowserReady;
        Refresh; Print (MsgScrapeError crashed); Print (MsgWaiting 10);
        Sleep 10;
        Refresh; Print (MsgScrapeError crashed); Print (MsgWaiting 10);
        Sleep 10]
  /\ (forall n,
        snd (@main stable_sorter sample_args ok_session
               (repeat crashed_cycle n) sample_world) = Ok Running
        /\ quits (trace (fst (@main stable_sorter sample_args ok_session
                                (repeat crashed_cycle n) sample_world)))
           = 0%nat).
Proof.
  split; [reflexivity|]. split; [vm_compute; reflexivity|].
  intros n.
  set (w0 := log sample_world
               [InstallDriver;
                StartChrome (chrome_arguments true (py "1920,1080"));
                Get home_url]).
  assert (Hb : build_driver ok_session (headless sample_args) sample_world
               = (w0, Ok ChromeSession)) by reflexivity.
  destruct (crashed_loop_running stable_sorter n
              (log w0 [Print MsgBrowserReady])) as [H1 H2].
  destruct (loop sample_args (repeat crashed_cycle n)
              (log w0 [Print MsgBrowserReady])) as [w1 r] eqn:El.
  cbn [fst snd] in H1, H2. subst r.
  rewrite (main_running sample_args ok_session _ sample_world w0 _ w1 Hb El).
  split; [reflexivity|]. cbn [fst]. rewrite H2. reflexivity.
Qed.

(** C8, amended. A [WebDriverException] raised while the session is
    acquired ([build_driver]) is logged as a WebDriver error and [main]
    returns without entering the loop; no handle was bound, so nothing is
    released.  A [WebDriverException] raised inside a cycle is an
    [Exception] like any other: whatever [Exception] the body of a cycle
    raises is logged as a scrape error by the handler of that cycle, and
    the loop goes on to the wait notice and the sleep, and after a sleep
    that returns to the next cycle. *)
Theorem webdriver_error_spec (sorter : Sorter) (a : args) :
  (forall ss cycles w w0 e,
     build_driver ss (headless a) w = (w0, Raise e) ->
     isinstance e WebDriverException = true ->
     main a ss cycles w = (log w0 [Print (MsgWebDriverError e)], Ok Finished)
     /\ quits (trace (log w0 [Print (MsgWebDriverError e)])) = quits (trace w))
  /\ (forall e,
        isinstance e WebDriverException = true ->
        isinstance e Exception = true)
  /\ (forall c rest w w1 e,
        cycle_body a (cycle_page c) w = (w1, Raise e) ->
        isinstance e Exception = true ->
        loop a (c :: rest) w
        = idle a c rest
            (log w1 [Print (MsgScrapeError e); Print (MsgWaiting (interval a))])
        /\ ((0 <= interval a)%Z -> sleep_r c = Ok tt ->
            loop a (c :: rest) w
            = loop a rest
                (log w1 [Print (MsgScrapeError e);
                         Print (MsgWaiting (interval a));
                         Sleep (interval a)]))).
Proof.
  split; [|split].
  - intros ss cycles w w0 e Hb He.
    rewrite (main_not_acquired a ss cycles w w0 e Hb), He.
    split; [reflexivity|].
    destruct (quiet_build_driver _ _ _ _ _ Hb) as (evs & Ht & Hq).
    cbn [log trace]. rewrite Ht, !quits_app, Hq. cbn. lia.
  - exact webdriver_is_exception.
  - intros c rest w w1 e Hb He.
    assert (Hl : loop a (c :: rest) w
                 = idle a c rest
                     (log w1 [Print (MsgScrapeError e);
                              Print (MsgWaiting (interval a))])).
    { rewrite (loop_caught a c rest w w1 _ Hb); [reflexivity|].
      intros x [= <-]. exact He. }
    split; [exact Hl|]. intros Hi Hs.
    rewrite Hl, idle_sleeps by assumption. now rewrite log_log.
Qed.

Lemma webdriver_error_witness :
  @main stable_sorter sample_args session_without_chrome [sample_cycle]
    sample_world
  = (log sample_world
       [InstallDriver; StartChrome (chrome_arguments true (py "1920,1080"));
        Print (MsgWebDriverError no_chrome)],
     Ok Finished).
Proof.
  refine (eq_trans
    (proj1 (proj1 (webdriver_error_spec stable_sorter sample_args)
              session_without_chrome [sample_cycle] sample_world
              (log sample_world
                 [InstallDriver;
                  StartChrome (chrome_arguments true (py "1920,1080"))])
              no_chrome eq_refl eq_refl))
    _).
  reflexivity.
Defined.

(** ** Cancellation and release *)

(** C9, as stated: the session is released exactly once on every exit
    path, the one on which acquisition failed and the handle is null
    included.  When Chrome does not start, [main] returns with no call of
    [driver.quit()]; when Chrome starts and the first page load fails, the
    handle is never bound and again there is no call. *)
Lemma release_counterexample :
  snd (@main stable_sorter sample_args session_without_chrome
         [sample_cycle] sample_world) = Ok Finished
  /\ quits (trace (fst (@main stable_sorter sample_args session_without_chrome
                          [sample_cycle] sample_world))) = 0%nat
  /\ @main stable_sorter sample_args session_without_network
       [sample_cycle] sample_world
     = (log sample_world
          [InstallDriver;
           StartChrome (chrome_arguments true (py "1920,1080"));
           Get home_url; Print (MsgWebDriverError no_network)],
        Ok Finished).
Proof. repeat split. Qed.

(** C9, amended. A [KeyboardInterrupt] raised by the sleep between two
    cycles ends the loop there: the stop notice is the only output after
    the interrupted sleep, no further cycle is run, and with the session
    closed without error [main] returns normally, having called
    [driver.quit()] once and logged no error.  On every path on which
    [main] is left, [driver.quit()] is called exactly once when
    [build_driver] had returned a handle, and not at all when it had
    raised and the handle is null. *)
Theorem cancellation_spec (sorter : Sorter) (a : args) (ss : session) :
  (forall c rest w w1 r e,
     cycle_body a (cycle_page c) w = (w1, r) -> caught r ->
     (0 <= interval a)%Z ->
     sleep_r c = Raise e -> isinstance e KeyboardInterrupt = true ->
     loop a (c :: rest) w
     = (log w1 (err_events r
                ++ [Print (MsgWaiting (interval a)); Sleep (interval a);
                    Print MsgStopped]),
        Ok Finished))
  /\ (forall cycles w w0 d w1,
        build_driver ss (headless a) w = (w0, Ok d) ->
        loop a cycles (log w0 [Print MsgBrowserReady]) = (w1, Ok Finished) ->
        quit_r ss = Ok tt ->
        main a ss cycles w
        = (log w1 [Quit; Print MsgBrowserClosed], Ok Finished))
  /\ (forall cycles w w' r,
        main a ss cycles w = (w', r) -> r <> Ok Running ->
        exists evs,
          trace w' = trace w ++ evs
          /\ quits evs
             = if returned (snd (build_driver ss (headless a) w)) then 1%nat
               else 0%nat).
Proof.
  split; [|split].
  - intros c rest w w1 r e Hb Hc Hi Hs He.
    rewrite (loop_caught a c rest w w1 r Hb Hc).
    rewrite (idle_interrupted a c rest _ e Hi Hs He), log_log.
    now rewrite <- app_assoc.
  - intros cycles w w0 d w1 Hb Hl Hq.
    rewrite (main_left a ss cycles w w0 d w1 _ Hb Hl) by discriminate.
    unfold closing. now rewrite Hq.
  - intros cycles w w' r. apply main_quits.
Qed.

Lemma cancellation_witness :
  exists evs,
    trace (fst (@main stable_sorter sample_args ok_session
                  [slow_cycle; interrupted_cycle; sample_cycle] sample_world))
    = trace sample_world ++ evs
    /\ quits evs = 1%nat.
Proof.
  refine (proj2 (proj2 (cancellation_spec stable_sorter sample_args ok_session))
            [slow_cycle; interrupted_cycle; sample_cycle] sample_world _
            (Ok Finished) _ _).
  - vm_compute. reflexivity.
  - discriminate.
Defined.

(** C10. The price view is shown when the test [args.min_price or
    args.max_price] holds, and a bound of 0.0 is false in that test: with
    the minimum set to 0.0 and no maximum, a cycle with a non-empty
    snapshot renders the snapshot and the gainers and losers views and no
    price view, although [filter_by_price] takes 0.0 for a bound (it would
    leave out the record without a price); with the minimum set to 1.0 the
    price view is rendered. *)
Theorem price_view_zero_bound (sorter : Sorter) (df : DataFrame) (w : world) :
  min_price zero_bound_args = Some (S754_zero false)
  /\ bounded (min_price zero_bound_args) (max_price zero_bound_args) = true
  /\ render_views zero_bound_args df w
     = (log w (snapshot_events df ++ top_events zero_bound_args df), Ok tt)
  /\ List.filter is_price_view
       (snapshot_events df ++ top_events zero_bound_args df) = []
  /\ filter_by_price frame_tied (Some (of_Z 0)) None
     = [row "AAA" (Some (of_Z 1)) (Some (of_Z 2));
        row "CCC" (Some (of_Z 3)) (Some (of_Z 2));
        row "DDD" (Some (of_Z 5)) (Some (of_Z 7))]
  /\ render_views one_bound_args df w
     = (log w (snapshot_events df
               ++ price_view_events df (Some (of_Z 1)) None
               ++ top_events one_bound_args df),
        Ok tt).
Proof.
  split; [reflexivity|]. split; [reflexivity|].
  split; [now rewrite render_views_run|].
  split; [reflexivity|]. split; [reflexivity|].
  now rewrite render_views_run.
Qed.

(** The same in a whole run: one cycle over [sample_page] with the minimum
    price set to 0.0 prints no price view. *)
Lemma price_view_zero_bound_run :
  List.filter is_price_view
    (trace (fst (@main stable_sorter zero_bound_args ok_session
                   [sample_cycle] sample_world))) = []
  /\ List.filter is_price_view
       (trace (fst (@main stable_sorter one_bound_args ok_session
                      [sample_cycle] sample_world)))
     = [Print MsgPriceTitle; Print (MsgTable price_columns sample_records)].
Proof. split; vm_compute; reflexivity. Qed.

(** An exception raised inside the body of a cycle that is no
    [Exception] (a [KeyboardInterrupt] that arrives while the page is
    scraped) is not caught by the handler of the cycle: it ends the loop,
    the session is closed once, and the exception leaves [main]. *)
Theorem interrupt_in_cycle (sorter : Sorter) (a : args) (ss : session)
    (c : cycle) (rest : list cycle) (w w0 w1 : world) (d : driver) (e : exn) :
  build_driver ss (headless a) w = (w0, Ok d) ->
  cycle_body a (cycle_page c) (log w0 [Print MsgBrowserReady])
  = (w1, Raise e) ->
  isinstance e Exception = false ->
  quit_r ss = Ok tt ->
  main a ss (c :: rest) w = (log w1 [Quit; Print MsgBrowserClosed], Raise e).
Proof.
  intros Hb Hc He Hq.
  rewrite (main_left a ss _ w w0 d w1 (Raise e) Hb) by
    (try discriminate; now apply loop_escape).
  unfold closing. now rewrite (not_exception_not_webdriver e He), Hq.
Qed.

Lemma interrupt_in_cycle_witness :
  @main stable_sorter sample_args ok_session
    [mk_cycle interrupted_page (Ok tt); sample_cycle] sample_world
  = (log sample_world
       [InstallDriver; StartChrome (chrome_arguments true (py "1920,1080"));
        Get home_url; Print MsgBrowserReady; Refresh; Quit;
        Print MsgBrowserClosed],
     Raise ctrl_c).
Proof.
  refine (eq_trans
    (interrupt_in_cycle stable_sorter sample_args ok_session
       (mk_cycle interrupted_page (Ok tt)) [sample_cycle] sample_world
       (log sample_world
          [InstallDriver;
           StartChrome (chrome_arguments true (py "1920,1080"));
           Get home_url])
       (log sample_world
          [InstallDriver;
           StartChrome (chrome_arguments true (py "1920,1080"));
           Get home_url; Print MsgBrowserReady; Refresh])
       ChromeSession ctrl_c eq_refl eq_refl eq_refl eq_refl) _).
  reflexivity.
Defined.

(** With a negative interval [time.sleep] raises [ValueError] after the
    first cycle; the handler around the sleep catches [KeyboardInterrupt]
    only, so the error ends the loop, the session is closed once, and the
    error leaves [main]. *)
Theorem negative_interval (sorter : Sorter) (a : args) (ss : session)
    (c : cycle) (rest : list cycle) (w w0 w1 : world) (d : driver)
    (r : result unit) :
  build_driver ss (headless a) w = (w0, Ok d) ->
  cycle_body a (cycle_page c) (log w0 [Print MsgBrowserReady]) = (w1, r) ->
  caught r ->
  (interval a < 0)%Z ->
  quit_r ss = Ok tt ->
  main a ss (c :: rest) w
  = (log w1 (err_events r
             ++ [Print (MsgWaiting (interval a)); Quit;
                 Print MsgBrowserClosed]),
     Raise (mk_exn ValueError (py "sleep length must be non-negative"))).
Proof.
  intros Hb Hc Hr Hi Hq.
  assert (Hl : loop a (c :: rest) (log w0 [Print MsgBrowserReady])
               = (log w1 (err_events r ++ [Print (MsgWaiting (interval a))]),
                  Raise (mk_exn ValueError
                           (py "sleep length must be non-negative")))).
  { rewrite (loop_caught a c rest _ w1 r Hc Hr).
    unfold idle, try_catch, sleep.
    destruct (Z.ltb_spec (interval a) 0); [|lia]. reflexivity. }
  rewrite (main_left a ss _ w w0 d _ _ Hb Hl) by discriminate.
  unfold closing. cbn [isinstance issubclass mro existsb exn_class_eqb
                        exn_cls orb].
  now rewrite Hq, log_log, <- app_assoc.
Qed.

Lemma negative_interval_witness :
  snd (@main stable_sorter backwards_args ok_session
         [slow_cycle; sample_cycle] sample_world)
  = Raise (mk_exn ValueError (py "sleep length must be non-negative")).
Proof.
  refine (eq_trans _
    (f_equal snd
       (negative_interval stable_sorter backwards_args ok_session slow_cycle
          [sample_cycle] sample_world _ _ ChromeSession (Ok tt)
          eq_refl eq_refl _ eq_refl eq_refl))).
  - reflexivity.
  - intros e; discriminate.
Defined.

(* ===================================================================== *)
(** * Further properties: the numeric normalizer *)
(* ===================================================================== *)

Module NormalizerFacts.

Lemma remove_chars_app cs a b :
  remove_chars cs (a ++ b) = remove_chars cs a ++ remove_chars cs b.
Proof. unfold remove_chars. apply List.filter_app. Qed.

Lemma remove_chars_insert cs a c b :
  existsb (N.eqb c) cs = true ->
  remove_chars cs (a ++ c :: b) = remove_chars cs (a ++ b).
Proof.
  intros H. rewrite !remove_chars_app. f_equal.
  unfold remove_chars. cbn [List.filter]. now rewrite H.
Qed.

Lemma in_existsb (c : N) (cs : list N) :
  In c cs -> existsb (N.eqb c) cs = true.
Proof.
  intros H. apply existsb_exists. exists c. split; [exact H|].
  apply N.eqb_refl.
Qed.

Lemma lstrip_spaces (s : str) :
  forallb isspace s = true -> lstrip s = [].
Proof.
  induction s as [|c s IH]; cbn; [reflexivity|].
  intros H. apply andb_prop in H as [Hc Hs]. rewrite Hc. now apply IH.
Qed.

Lemma strip_spaces (s : str) : forallb isspace s = true -> strip s = [].
Proof. intros H. unfold strip. now rewrite lstrip_spaces. Qed.

Lemma remove_blank cs (s : str) :
  forallb (fun c => existsb (N.eqb c) cs || isspace c) s = true ->
  forallb isspace (remove_chars cs s) = true.
Proof.
  induction s as [|c s IH]; cbn; [reflexivity|].
  intros H. apply andb_prop in H as [Hc Hs].
  destruct (existsb (N.eqb c) cs); cbn in *; [now apply IH|].
  rewrite Hc. now apply IH.
Qed.

Lemma money_value_insert a c b :
  existsb (N.eqb c) money_noise = true ->
  money_value (a ++ c :: b) = money_value (a ++ b).
Proof.
  intros H. unfold money_value.
  rewrite (remove_chars_insert _ a c b H).
  destruct (a ++ c :: b) eqn:E1; [now destruct a|].
  destruct (a ++ b) eqn:E2; [|reflexivity].
  apply app_eq_nil in E2 as [-> ->]. reflexivity.
Qed.

Lemma percent_value_insert a c b :
  existsb (N.eqb c) percent_removed = true ->
  percent_value (a ++ c :: b) = percent_value (a ++ b).
Proof.
  intros H. unfold percent_value. fold percent_removed.
  rewrite (remove_chars_insert _ a c b H).
  destruct (a ++ c :: b) eqn:E1; [now destruct a|].
  destruct (a ++ b) eqn:E2; [|reflexivity].
  apply app_eq_nil in E2 as [-> ->]. reflexivity.
Qed.

End NormalizerFacts.
Import NormalizerFacts.

(** X3. [parse_money] does not depend on where the currency symbol, the
    thousands separators and the em-dash stand, nor on how many there
    are: putting one of them anywhere into a text leaves the result as it
    was. *)
Theorem parse_money_noise (a b : str) (c : N) :
  In c [36; 44; 0x2014]%N ->
  parse_money (a ++ c :: b) = parse_money (a ++ b).
Proof.
  intros H. rewrite !parse_money_value. f_equal.
  apply money_value_insert. now apply in_existsb.
Qed.

Lemma parse_money_noise_witness :
  In 44%N [36; 44; 0x2014]%N
  /\ parse_money (py "$64" ++ 44%N :: py "000") = parse_money (py "$64" ++ py "000").
Proof.
  split; [right; left; reflexivity|].
  apply (parse_money_noise (py "$64") (py "000") 44%N).
  right; left; reflexivity.
Defined.

(** X4. [parse_percent] does not depend on where the percent symbols,
    the plus signs and the thousands separators stand, nor on how many
    there are. *)
Theorem parse_percent_noise (a b : str) (c : N) :
  In c [37; 43; 44]%N ->
  parse_percent (a ++ c :: b) = parse_percent (a ++ b).
Proof.
  intros H. rewrite !parse_percent_value. f_equal.
  apply percent_value_insert. apply in_existsb.
  unfold percent_removed, percent_noise. cbn in *. tauto.
Qed.

Lemma parse_percent_noise_witness :
  In 43%N [37; 43; 44]%N
  /\ parse_percent (py "1e" ++ 43%N :: py "3%") = parse_percent (py "1e" ++ py "3%").
Proof.
  split; [right; left; reflexivity|].
  apply (parse_percent_noise (py "1e") (py "3%") 43%N).
  right; left; reflexivity.
Defined.

(** X5. A text made of nothing but the characters the normalizer removes
    and white space (the placeholder for missing data alone, a lone
    currency symbol, blanks) gives [None], with either function. *)
Theorem blank_text_is_none (text : str) :
  (forallb money_blank text = true -> parse_money text = Ok None)
  /\ (forallb percent_blank text = true -> parse_percent text = Ok None).
Proof.
  split; intros H.
  - rewrite parse_money_value. f_equal. unfold money_value.
    destruct text as [|c text]; [reflexivity|].
    now rewrite (strip_spaces _ (remove_blank money_noise _ H)).
  - rewrite parse_percent_value. f_equal. unfold percent_value.
    destruct text as [|c text]; [reflexivity|].
    fold percent_removed.
    now rewrite (strip_spaces _ (remove_blank percent_removed _ H)).
Qed.

Lemma blank_text_is_none_witness :
  forallb money_blank (py " — $ ") = true
  /\ parse_money (py " — $ ") = Ok None.
Proof.
  split; [reflexivity|].
  apply (proj1 (blank_text_is_none (py " — $ "))). reflexivity.
Defined.

(* ===================================================================== *)
(** * Further properties: the data-frame views *)
(* ===================================================================== *)

Module ViewFacts.

Lemma filter_by_price_within df lo hi :
  filter_by_price df lo hi
  = if bounded lo hi
    then List.filter (fun r => within lo hi (price r)) df
    else df.
Proof.
  unfold filter_by_price, within.
  destruct lo as [m|], hi as [n|]; cbn [bounded].
  - rewrite filter_filter. apply filter_ext'. intros r.
    destruct (cell_ge (price r) m) eqn:E1; cbn.
    + now rewrite (cell_ge_notna _ _ E1).
    + now rewrite andb_false_r.
  - apply filter_ext'. intros r. rewrite andb_true_r.
    destruct (cell_ge (price r) m) eqn:E1; cbn.
    + now rewrite (cell_ge_notna _ _ E1).
    + now rewrite andb_false_r.
  - apply filter_ext'. intros r. rewrite andb_true_r.
    destruct (cell_le (price r) n) eqn:E1; cbn.
    + now rewrite (cell_le_notna _ _ E1).
    + now rewrite andb_false_r.
  - reflexivity.
Qed.

Lemma filter_nothing {A} (f : A -> bool) (l : list A) :
  (forall x, f x = false) -> List.filter f l = [].
Proof. intros H. induction l as [|x l IH]; cbn; [easy|]. now rewrite H. Qed.

Lemma filter_idem {A} (f : A -> bool) (l : list A) :
  List.filter f (List.filter f l) = List.filter f l.
Proof.
  rewrite filter_filter. apply filter_ext'. intros x. now destruct (f x).
Qed.

Lemma filter_sublist {A} (f : A -> bool) (l : list A) :
  sublist (List.filter f l) l.
Proof.
  induction l as [|x l IH]; cbn; [constructor|].
  destruct (f x); now constructor.
Qed.

Lemma cell_ge_nan v m : isnan m = true -> cell_ge v m = false.
Proof.
  intros H. destruct v as [p|]; [|reflexivity]. cbn.
  destruct (PyFloat.leb m p) eqn:E; [|reflexivity].
  apply leb_nan_l in E. congruence.
Qed.

Lemma cell_le_nan v m : isnan m = true -> cell_le v m = false.
Proof.
  intros H. destruct v as [p|]; [|reflexivity]. cbn.
  destruct (PyFloat.leb p m) eqn:E; [|reflexivity].
  apply leb_nan_r in E. congruence.
Qed.

Lemma firstn_sorted_length {sorter : Sorter} {spec : SorterSpec sorter}
    key asc df :
  length (sort_values key asc df) = length df.
Proof. apply Permutation_length, sort_values_perm. Qed.

End ViewFacts.
Import ViewFacts.

(** X6. Bounds that no price can meet give the empty frame: a minimum
    that is not below or equal to the maximum (the two the wrong way
    round, or one of them NaN), and a single bound that is NaN. *)
Theorem filter_by_price_empty (df : DataFrame) (m n : float) :
  (PyFloat.leb m n = false -> filter_by_price df (Some m) (Some n) = [])
  /\ (isnan m = true -> forall hi, filter_by_price df (Some m) hi = [])
  /\ (isnan n = true -> forall lo, filter_by_price df lo (Some n) = []).
Proof.
  split; [|split].
  - intros H. rewrite filter_by_price_within. cbn [bounded].
    apply filter_nothing. intros r.
    destruct (within (Some m) (Some n) (price r)) eqn:E; [|reflexivity].
    apply within_iff in E as (p & _ & _ & Hlo & Hhi).
    rewrite (leb_trans m p n (Hlo m eq_refl) (Hhi n eq_refl)) in H.
    discriminate.
  - intros H hi. rewrite filter_by_price_within. cbn [bounded].
    apply filter_nothing. intros r. unfold within.
    now rewrite (cell_ge_nan _ _ H), andb_false_r.
  - intros H lo. rewrite filter_by_price_within.
    replace (bounded lo (Some n)) with true by now destruct lo.
    apply filter_nothing. intros r. unfold within.
    now rewrite (cell_le_nan _ _ H), andb_false_r.
Qed.

Lemma filter_by_price_empty_witness :
  PyFloat.leb (of_Z 5) (of_Z 2) = false
  /\ filter_by_price frame_tied (Some (of_Z 5)) (Some (of_Z 2)) = [].
Proof.
  split; [reflexivity|].
  apply (proj1 (filter_by_price_empty frame_tied (of_Z 5) (of_Z 2))).
  reflexivity.
Defined.

(** X7. [filter_by_price] only leaves records out: the result is a
    sub-sequence of the snapshot, in the snapshot's order.  Filtering the
    result again with the same bounds changes nothing, and the two bounds
    can be applied one after the other in either order. *)
Theorem filter_by_price_narrows (df : DataFrame) (lo hi : option float) :
  sublist (filter_by_price df lo hi) df
  /\ filter_by_price (filter_by_price df lo hi) lo hi = filter_by_price df lo hi
  /\ filter_by_price (filter_by_price df None hi) lo None
     = filter_by_price df lo hi
  /\ filter_by_price (filter_by_price df lo None) None hi
     = filter_by_price df lo hi.
Proof.
  split; [|split; [|split]].
  - rewrite filter_by_price_within. destruct (bounded lo hi);
      [apply filter_sublist | reflexivity].
  - rewrite !filter_by_price_within. destruct (bounded lo hi);
      [apply filter_idem | reflexivity].
  - unfold filter_by_price. destruct lo as [m|], hi as [n|]; try reflexivity.
    rewrite !filter_filter. apply filter_ext'. intros r. apply andb_comm.
  - reflexivity.
Qed.

(** X8. With a sorter that keeps the library's promise: a view of [k = 0]
    rows is empty, and a view of at least as many rows as the snapshot
    has is the whole snapshot rearranged, the records without a change
    among them. *)
Theorem top_view_extremes (sorter : Sorter) (sorter_spec : SorterSpec sorter)
    (df : DataFrame) (k : Z) :
  filter_top_gainers df 0 = []
  /\ filter_top_losers df 0 = []
  /\ ((Z.of_nat (length df) <= k)%Z ->
      Permutation (filter_top_gainers df k) df
      /\ Permutation (filter_top_losers df k) df).
Proof.
  split; [reflexivity|]. split; [reflexivity|].
  intros Hk. unfold filter_top_gainers, filter_top_losers, Frame.head.
  rewrite !slice_to_nonneg by lia.
  rewrite !firstn_all2 by (rewrite firstn_sorted_length; lia).
  split; apply sort_values_perm.
Qed.

Lemma top_view_extremes_witness :
  SorterSpec stable_sorter
  /\ (Z.of_nat (length frame_tied) <= 5)%Z
  /\ Permutation (@filter_top_gainers stable_sorter frame_tied 5) frame_tied.
Proof.
  split; [exact stable_sorter_spec|]. split; [cbn; lia|].
  apply (proj2 (proj2 (top_view_extremes stable_sorter stable_sorter_spec
                         frame_tied 5))).
  cbn; lia.
Defined.

(** X9. A negative count is not refused: [head(k)] with [k < 0] drops the
    last [-k] rows of the sorted snapshot, so the view holds all records
    but the [-k] last of the sorted order (none when the snapshot has no
    more than [-k]). *)
Theorem top_view_negative (sorter : Sorter) (sorter_spec : SorterSpec sorter)
    (df : DataFrame) (k : Z) :
  (k < 0)%Z ->
  (exists dropped,
     sort_values change_24h false df = filter_top_gainers df k ++ dropped
     /\ Z.of_nat (length dropped) = Z.min (- k) (Z.of_nat (length df)))
  /\ (exists dropped,
        sort_values change_24h true df = filter_top_losers df k ++ dropped
        /\ Z.of_nat (length dropped) = Z.min (- k) (Z.of_nat (length df))).
Proof.
  intros Hk. unfold filter_top_gainers, filter_top_losers, Frame.head, slice_to.
  destruct (Z.ltb_spec k 0); [|lia].
  split.
  - set (s := sort_values change_24h false df).
    exists (skipn (length s - Z.to_nat (- k)) s).
    rewrite firstn_skipn. split; [reflexivity|].
    rewrite length_skipn. unfold s. rewrite firstn_sorted_length. lia.
  - set (s := sort_values change_24h true df).
    exists (skipn (length s - Z.to_nat (- k)) s).
    rewrite firstn_skipn. split; [reflexivity|].
    rewrite length_skipn. unfold s. rewrite firstn_sorted_length. lia.
Qed.

Lemma top_view_negative_witness :
  SorterSpec stable_sorter /\ (-1 < 0)%Z
  /\ exists dropped,
       @sort_values stable_sorter change_24h false frame_tied
       = @filter_top_gainers stable_sorter frame_tied (-1) ++ dropped
       /\ Z.of_nat (length dropped)
          = Z.min (- -1) (Z.of_nat (length frame_tied)).
Proof.
  split; [exact stable_sorter_spec|]. split; [lia|].
  apply (top_view_negative stable_sorter stable_sorter_spec frame_tied (-1)).
  lia.
Defined.

(* ===================================================================== *)
(** * Further properties: the output file *)
(* ===================================================================== *)

Module LogFacts.

Lemma stamped_nil clock n batches :
  existsb is_batch batches = false -> stamped clock n batches = [].
Proof.
  revert n. induction batches as [|b rest IH]; intros n; cbn; [easy|].
  destruct (is_batch b); cbn; [discriminate|]. apply IH.
Qed.

Lemma save_all_run batches path : forall w,
  save_all batches path w
  = (mk_world
       (if existsb is_batch batches
        then <[path := content w path
                       ++ (match fs w !! path with
                           | None => [Header csv_columns]
                           | Some _ => []
                           end)
                       ++ stamped (clock w) (reads w) batches]> (fs w)
        else fs w)
       (clock w)
       (reads w + length (List.filter is_batch batches))
       (trace w),
     Ok tt).
Proof.
  induction batches as [|b rest IH]; intros w.
  - cbn. unfold ret. destruct w. cbn. now rewrite Nat.add_0_r.
  - cbn [save_all]. rewrite mbind_run.
    destruct b as [|r b].
    + cbn [save_to_csv]. unfold ret at 1. rewrite IH. cbn.
      reflexivity.
    + rewrite save_to_csv_run by discriminate. rewrite IH.
      cbn [existsb is_batch orb List.filter length stamped].
      unfold saved, content, appended. cbn [fs clock reads trace].
      rewrite lookup_insert_eq. cbn [default].
      f_equal. f_equal; [|lia].
      destruct (existsb is_batch rest) eqn:E.
      * rewrite insert_insert_eq. f_equal. unfold id. cbn [app].
        now rewrite <- !app_assoc.
      * rewrite (stamped_nil _ _ _ E), app_nil_r. reflexivity.
Qed.

Lemma grown_refl path w : grown path w w.
Proof. split; [exists []; now rewrite app_nil_r | easy]. Qed.

Lemma grown_trans path w1 w2 w3 :
  grown path w1 w2 -> grown path w2 w3 -> grown path w1 w3.
Proof.
  intros [[a1 H1] S1] [[a2 H2] S2]. split; [|auto].
  exists (a1 ++ a2). now rewrite H2, H1, app_assoc.
Qed.

Lemma grown_same_fs path w w' : fs w' = fs w -> grown path w w'.
Proof.
  intros H. unfold grown, content. rewrite H.
  split; [exists []; now rewrite app_nil_r | easy].
Qed.

Lemma append_only_same_fs {A} path (m : M A) :
  (forall w, fs (fst (m w)) = fs w) -> append_only path m.
Proof.
  intros H w w' r E. apply grown_same_fs. specialize (H w).
  now rewrite E in H.
Qed.

Lemma append_only_ret {A} path (a : A) : append_only path (ret a).
Proof. now apply append_only_same_fs. Qed.

Lemma append_only_raise {A} path (e : exn) : append_only path (@raise A e).
Proof. now apply append_only_same_fs. Qed.

Lemma append_only_lift {A} path (x : result A) : append_only path (lift x).
Proof. now apply append_only_same_fs. Qed.

Lemma append_only_emit path e : append_only path (emit e).
Proof. now apply append_only_same_fs. Qed.

Lemma append_only_print path m : append_only path (print m).
Proof. now apply append_only_same_fs. Qed.

Lemma append_only_bind {A B} path (m : M A) (k : A -> M B) :
  append_only path m -> (forall a, append_only path (k a)) ->
  append_only path (World.mbind m k).
Proof.
  intros Hm Hk w w' r. unfold World.mbind.
  destruct (m w) as [w1 [a|e]] eqn:E; intros H.
  - eapply grown_trans; [exact (Hm _ _ _ E) | exact (Hk a _ _ _ H)].
  - injection H as <- <-. exact (Hm _ _ _ E).
Qed.

Lemma append_only_try_catch {A} path (m : M A) c (h : exn -> M A) :
  append_only path m -> (forall e, append_only path (h e)) ->
  append_only path (try_catch m c h).
Proof.
  intros Hm Hh w w' r. unfold try_catch.
  destruct (m w) as [w1 [a|e]] eqn:E; intros H.
  - injection H as <- <-. exact (Hm _ _ _ E).
  - destruct (isinstance e c).
    + eapply grown_trans; [exact (Hm _ _ _ E) | exact (Hh e _ _ _ H)].
    + injection H as <- <-. exact (Hm _ _ _ E).
Qed.

Lemma append_only_call {A} path e (x : result A) : append_only path (call e x).
Proof.
  apply append_only_bind; [apply append_only_emit | intros; apply append_only_lift].
Qed.

Lemma append_only_save_to_csv path records file :
  append_only path (save_to_csv records file).
Proof.
  intros w w' r E. destruct records as [|x records].
  - injection E as <- <-. apply grown_refl.
  - rewrite save_to_csv_run in E by discriminate. injection E as <- <-.
    unfold grown, content, saved, appended. cbn [fs].
    destruct (decide (file = path)) as [->|Hne].
    + rewrite lookup_insert_eq. cbn [default]. split; [eauto|eauto].
    + rewrite lookup_insert_ne by exact Hne.
      split; [exists []; now rewrite app_nil_r | easy].
Qed.

Create HintDb append_only.
#[local] Hint Resolve append_only_ret append_only_raise append_only_lift
  append_only_print append_only_emit append_only_call
  append_only_save_to_csv : append_only.
#[local] Hint Extern 2 (append_only _ (World.mbind _ _)) =>
  apply append_only_bind; [|intros] : append_only.
#[local] Hint Extern 2 (append_only _ (try_catch _ _ _)) =>
  apply append_only_try_catch; [|intros] : append_only.
#[local] Hint Extern 3 (append_only _ (if ?b then _ else _)) =>
  destruct b : append_only.
#[local] Hint Extern 3 (append_only _ (match ?x with _ => _ end)) =>
  destruct x : append_only.

Lemma append_only_extract_row path i row : append_only path (extract_row i row).
Proof. unfold extract_row, cell_text, item. auto 40 with append_only. Qed.

#[local] Hint Resolve append_only_extract_row : append_only.

Lemma append_only_for_rows path rows : forall i acc,
  append_only path (for_rows i rows acc).
Proof.
  induction rows as [|row rows IH]; intros i acc; cbn [for_rows];
    auto 10 with append_only.
Qed.

#[local] Hint Resolve append_only_for_rows : append_only.

Lemma append_only_scrape_top_n path pg n t :
  append_only path (scrape_top_n pg n t).
Proof. unfold scrape_top_n. auto 20 with append_only. Qed.

Lemma append_only_build_driver path ss h :
  append_only path (build_driver ss h).
Proof. unfold build_driver. auto 20 with append_only. Qed.

Lemma append_only_sleep path s r : append_only path (sleep s r).
Proof. unfold sleep. auto with append_only. Qed.

#[local] Hint Resolve append_only_scrape_top_n append_only_build_driver
  append_only_sleep : append_only.

Section AppendOnlyLoop.
Context {sorter : Sorter}.

Lemma append_only_render_views path a df : append_only path (render_views a df).
Proof. unfold render_views. auto 20 with append_only. Qed.

#[local] Hint Resolve append_only_render_views : append_only.

Lemma append_only_cycle_body path a pg : append_only path (cycle_body a pg).
Proof. unfold cycle_body. auto 20 with append_only. Qed.

#[local] Hint Resolve append_only_cycle_body : append_only.

Lemma append_only_loop path a cycles : append_only path (loop a cycles).
Proof.
  induction cycles as [|c rest IH]; cbn [loop]; auto 20 with append_only.
Qed.

Lemma append_only_cleanup path ss drv : append_only path (cleanup ss drv).
Proof. unfold cleanup. auto 20 with append_only. Qed.

Lemma append_only_main path a ss cycles : append_only path (main a ss cycles).
Proof.
  intros w w' r. unfold main.
  destruct (build_driver ss (headless a) w) as [w0 [d|e]] eqn:Hb.
  - pose proof (append_only_build_driver path _ _ _ _ _ Hb) as G0.
    destruct ((print MsgBrowserReady;;; loop a cycles) w0) as [w1 r1] eqn:Hl.
    assert (G1 : grown path w0 w1).
    { exact (append_only_bind path _ _ (append_only_print path _)
               (fun _ => append_only_loop path a cycles) _ _ _ Hl). }
    destruct r1 as [[]|e].
    + intros [= <- <-]. eapply grown_trans; eassumption.
    + unfold try_catch, lift.
      destruct (cleanup ss (Some d) w1) as [w3 [u|q]] eqn:Hc;
        intros [= <- <-]; pose proof (append_only_cleanup path _ _ _ _ _ Hc);
        eauto using grown_trans.
    + unfold try_catch, lift.
      destruct (isinstance e WebDriverException).
      * destruct ((print (MsgWebDriverError e);;; ret Finished) w1)
          as [w2 r2] eqn:Hh.
        assert (G2 : grown path w1 w2).
        { exact (append_only_bind path _ _ (append_only_print path _)
                   (fun _ => append_only_ret path Finished) _ _ _ Hh). }
        destruct (cleanup ss (Some d) w2) as [w3 [u|q]] eqn:Hc;
          intros [= <- <-];
          pose proof (append_only_cleanup path _ _ _ _ _ Hc);
          eauto using grown_trans.
      * destruct (cleanup ss (Some d) w1) as [w3 [u|q]] eqn:Hc;
          intros [= <- <-];
          pose proof (append_only_cleanup path _ _ _ _ _ Hc);
          eauto using grown_trans.
  - pose proof (append_only_build_driver path _ _ _ _ _ Hb) as G0.
    unfold try_catch, lift, cleanup.
    destruct (isinstance e WebDriverException).
    + destruct ((print (MsgWebDriverError e);;; ret Finished) w0)
        as [w2 r2] eqn:Hh.
      assert (G2 : grown path w0 w2).
      { exact (append_only_bind path _ _ (append_only_print path _)
                 (fun _ => append_only_ret path Finished) _ _ _ Hh). }
      unfold ret. intros [= <- <-]. eauto using grown_trans.
    + unfold ret. intros [= <- <-]. exact G0.
Qed.

End AppendOnlyLoop.

End LogFacts.
Import LogFacts.

Lemma stamped_no_header clock batches : forall n,
  List.filter is_header (stamped clock n batches) = [].
Proof.
  induction batches as [|b rest IH]; intros n; cbn; [reflexivity|].
  destruct (is_batch b); [|apply IH].
  rewrite List.filter_app, IH, app_nil_r. unfold rows_of.
  induction b as [|r b IHb]; cbn; [reflexivity | exact IHb].
Qed.

(** X10. Batches saved one after the other to one path, as the loop saves
    them cycle after cycle: an empty batch changes nothing and takes no
    clock reading; every other batch takes one reading, which stamps all
    its rows; the rows are appended in the order of the batches; one
    header line is written, before the first rows, when the path did not
    exist at the start, and none when it did (were the file empty);
    other paths are not touched. *)
Theorem save_all_spec (batches : list (list record)) (path : str) (w : world) :
  let w' := fst (save_all batches path w) in
  snd (save_all batches path w) = Ok tt
  /\ reads w' = (reads w + length (List.filter is_batch batches))%nat
  /\ fs w' !! path
     = (if existsb is_batch batches
        then Some (content w path
                   ++ (match fs w !! path with
                       | None => [Header csv_columns]
                       | Some _ => []
                       end)
                   ++ stamped (clock w) (reads w) batches)
        else fs w !! path)
  /\ List.filter is_header (stamped (clock w) (reads w) batches) = []
  /\ (forall other, other <> path -> fs w' !! other = fs w !! other).
Proof.
  cbn zeta. rewrite save_all_run. cbn [fst snd fs reads].
  split; [reflexivity|]. split; [reflexivity|].
  split; [|split; [apply stamped_no_header|]].
  - destruct (existsb is_batch batches); [|reflexivity].
    now rewrite lookup_insert_eq.
  - intros other Ho. destruct (existsb is_batch batches); [|reflexivity].
    now rewrite lookup_insert_ne.
Qed.

(** X11. Over a whole run of [main], however it ends, the output file is
    at most extended: the lines it held before are still there, in front,
    and a file that was there is still there.  (The screenshot is the
    browser's file, so the output path is taken to be another one.) *)
Theorem output_append_only (sorter : Sorter) (a : args) (ss : session)
    (cycles : list cycle) (w w' : world) (r : result status) :
  output a <> screenshot_file ->
  main a ss cycles w = (w', r) ->
  (exists added, content w' (output a) = content w (output a) ++ added)
  /\ (is_Some (fs w !! output a) -> is_Some (fs w' !! output a)).
Proof. intros _ H. exact (append_only_main (output a) a ss cycles w w' r H). Qed.

Lemma output_append_only_witness :
  output sample_args <> screenshot_file
  /\ (exists added,
        content (fst (@main stable_sorter sample_args ok_session
                        [sample_cycle; sample_cycle] sample_world))
          (output sample_args)
        = content sample_world (output sample_args) ++ added).
Proof.
  assert (Hne : output sample_args <> screenshot_file).
  { intros H. vm_compute in H. discriminate. }
  split; [exact Hne|].
  apply (output_append_only stable_sorter sample_args ok_session
           [sample_cycle; sample_cycle] sample_world _
           (snd (@main stable_sorter sample_args ok_session
                   [sample_cycle; sample_cycle] sample_world)) Hne).
  apply surjective_pairing.
Defined.

(* ===================================================================== *)
(** * Further properties: readiness and rows *)
(* ===================================================================== *)

Module ReadinessFacts.

Lemma split_char_no_sep sep s :
  Forall (fun w => ~ In sep w) (split_char sep s).
Proof.
  induction s as [|c s IH]; cbn; [repeat constructor; intros []|].
  destruct (N.eqb_spec c sep) as [->|Hne].
  - constructor; [intros []|exact IH].
  - destruct (split_char sep s) as [|w ws]; [repeat constructor; intros [?|[]]; congruence|].
    apply Forall_cons_1 in IH as [Hw Hws].
    constructor; [|exact Hws]. intros [?|?]; [congruence|tauto].
Qed.

Lemma split_char_single sep s : ~ In sep s -> split_char sep s = [s].
Proof.
  induction s as [|c s IH]; cbn; [reflexivity|]. intros H.
  destruct (N.eqb_spec c sep) as [->|Hne]; [tauto|].
  rewrite IH by tauto. reflexivity.
Qed.

Lemma nth_no_sep sep s i : ~ In sep (nth i (split_char sep s) []).
Proof.
  pose proof (split_char_no_sep sep s) as H.
  rewrite List.Forall_forall in H.
  destruct (Nat.lt_ge_cases i (length (split_char sep s))) as [Hi|Hi].
  - apply H, nth_In, Hi.
  - rewrite nth_overflow by exact Hi. intros [].
Qed.

Lemma cell_nth cols i t : nth_error cols i = Some t -> cell cols i = t.
Proof. unfold cell. now intros ->. Qed.

End ReadinessFacts.
Import ReadinessFacts.

(** X12. Of the four calls before the rows are read, the first one that
    raises decides the cycle.  A [TimeoutException], also one raised by
    the refresh or by the scroll, makes [scrape_top_n] take the
    screenshot and return the empty list (or raise what taking the
    screenshot raises); any other exception leaves [scrape_top_n] as it
    is, with no screenshot.  In neither case is a row looked up. *)
Theorem scrape_not_ready (pg : page) (n t : Z) (w : world) (e : exn) :
  first_failure pg = Some e ->
  scrape_top_n pg n t w
  = if isinstance e TimeoutException
    then match screenshot_r pg with
         | Ok _ =>
             (log w (attempted pg t
                     ++ [SaveScreenshot screenshot_file; Print MsgTimeout]),
              Ok [])
         | Raise x =>
             (log w (attempted pg t ++ [SaveScreenshot screenshot_file]),
              Raise x)
         end
    else (log w (attempted pg t), Raise e).
Proof.
  unfold first_failure, attempted, scrape_top_n, try_catch.
  destruct (refresh_r pg) as [[]|e1]; cbn [returned].
  2:{ intros [= ->]. step. destruct (isinstance e TimeoutException);
        [|reflexivity].
      step. destruct (screenshot_r pg); step; reflexivity. }
  destruct (script_r pg) as [[]|e2]; cbn [returned].
  2:{ intros [= ->]. step. destruct (isinstance e TimeoutException);
        [|reflexivity].
      step. destruct (screenshot_r pg); step; reflexivity. }
  destruct (wait_rows_r pg) as [[]|e3]; cbn [returned].
  2:{ intros [= ->]. step. destruct (isinstance e TimeoutException);
        [|reflexivity].
      step. destruct (screenshot_r pg); step; reflexivity. }
  destruct (wait_price_r pg) as [[]|e4]; [discriminate|].
  intros [= ->]. step. destruct (isinstance e TimeoutException);
    [|reflexivity].
  step. destruct (screenshot_r pg); step; reflexivity.
Qed.

Lemma scrape_not_ready_witness :
  first_failure crashed_page = Some crashed
  /\ scrape_top_n crashed_page 10 30 sample_world
     = (log sample_world [Refresh], Raise crashed).
Proof.
  split; [reflexivity|].
  apply (scrape_not_ready crashed_page 10 30 sample_world crashed).
  reflexivity.
Defined.

(** X13. A row with at least eight cells whose texts can be read is
    always kept, whatever the texts are: text that is no number gives a
    field that is [None], not an error.  The fields are what
    [parse_money] and [parse_percent] return on the stripped texts; name
    and symbol are the first two lines of the name cell and hold no line
    break; a name cell of one line gives that line as the name and the
    empty symbol. *)
Theorem readable_row_is_kept (i : nat) (cols : list (result str))
    (t1 t2 t3 t4 t7 : str) (w : world) :
  nth_error cols 1 = Some (Ok t1) -> nth_error cols 2 = Some (Ok t2) ->
  nth_error cols 3 = Some (Ok t3) -> nth_error cols 4 = Some (Ok t4) ->
  nth_error cols 7 = Some (Ok t7) ->
  exists r,
    extract_row i (mk_row (Ok cols)) w = (log w [FindCells i], Ok (Some r))
    /\ rank r = strip t1
    /\ parse_money (strip t3) = Ok (price r)
    /\ parse_percent (strip t4) = Ok (change_24h r)
    /\ parse_money (strip t7) = Ok (market_cap r)
    /\ ~ In 10%N (name r) /\ ~ In 10%N (symbol r)
    /\ (~ In 10%N (strip t2) -> name r = strip t2 /\ symbol r = []).
Proof.
  intros H1 H2 H3 H4 H7. exists (record_of t1 t2 t3 t4 t7).
  split.
  - rewrite extract_row_run. unfold row_verdict. cbn [row_cells].
    assert (Hlen : (length cols <? 8)%nat = false).
    { apply Nat.ltb_ge. apply (proj1 (List.nth_error_Some cols 7)).
      congruence. }
    rewrite Hlen. unfold read_cells.
    rewrite (cell_nth _ _ _ H1), (cell_nth _ _ _ H2), (cell_nth _ _ _ H3),
      (cell_nth _ _ _ H4), (cell_nth _ _ _ H7).
    reflexivity.
  - unfold record_of. cbn [rank price change_24h market_cap name symbol].
    split; [reflexivity|].
    split; [apply parse_money_value|].
    split; [apply parse_percent_value|].
    split; [apply parse_money_value|].
    split; [apply nth_no_sep|]. split; [apply nth_no_sep|].
    intros Hn. now rewrite (split_char_single _ _ Hn).
Qed.

Lemma readable_row_is_kept_witness :
  exists r,
    extract_row 0 (coin_row "7" "Dogecoin" "DOGE" "n/a" "--" "$1.2Q")
      sample_world
    = (log sample_world [FindCells 0], Ok (Some r))
    /\ rank r = strip (py "7")
    /\ parse_money (strip (py "n/a")) = Ok (price r)
    /\ parse_percent (strip (py "--")) = Ok (change_24h r)
    /\ parse_money (strip (py "$1.2Q")) = Ok (market_cap r)
    /\ ~ In 10%N (name r) /\ ~ In 10%N (symbol r)
    /\ (~ In 10%N (strip (py "Dogecoin" ++ [10%N] ++ py "DOGE")) ->
        name r = strip (py "Dogecoin" ++ [10%N] ++ py "DOGE")
        /\ symbol r = []).
Proof.
  exact (readable_row_is_kept 0
           [td ""; td "7"; Ok (py "Dogecoin" ++ [10%N] ++ py "DOGE");
            td "n/a"; td "--"; td ""; td ""; td "$1.2Q"; td ""; td "";
            td ""] (py "7")
           (py "Dogecoin" ++ [10%N] ++ py "DOGE") (py "n/a") (py "--")
           (py "$1.2Q") sample_world eq_refl eq_refl eq_refl eq_refl eq_refl).
Defined.

(* ===================================================================== *)
(** * Further properties: cycles and exits *)
(* ===================================================================== *)

Module CycleFacts.

Lemma kept_nil_cases (rows : list row_dom) (n : Z) :
  n = 0%Z \/ rows = [] -> kept (slice_to rows n) = [].
Proof.
  intros [-> | ->]; [now destruct rows|].
  unfold slice_to. now destruct (n <? 0)%Z; rewrite ?firstn_nil.
Qed.

Section Cycles.

Context {sorter : Sorter}.

Lemma idle_negative a c rest w :
  (interval a < 0)%Z ->
  idle a c rest w
  = (w, Raise (mk_exn ValueError (py "sleep length must be non-negative"))).
Proof.
  intros Hi. unfold idle, try_catch, sleep.
  destruct (Z.ltb_spec (interval a) 0); [|lia]. reflexivity.
Qed.

Lemma cycle_body_ready a pg rows w :
  ready pg -> rows_r pg = Ok rows ->
  Forall contained (slice_to rows (topn a)) ->
  cycle_body a pg w
  = let w1 := log w (ready_events (timeout a)
                     ++ rows_trace 0 (slice_to rows (topn a))) in
    match kept (slice_to rows (topn a)) with
    | [] => (log w1 [Print MsgNoData], Ok tt)
    | _ :: _ =>
        render_views a (kept (slice_to rows (topn a)))
          (saved (kept (slice_to rows (topn a))) (output a) w1)
    end.
Proof.
  intros (H1 & H2 & H3 & H4) Hr Hc. unfold cycle_body.
  rewrite mbind_run, (scrape_ready_run pg _ _ rows w H1 H2 H3 H4 Hr Hc).
  cbv zeta.
  destruct (kept (slice_to rows (topn a))) as [|r recs] eqn:E;
    [reflexivity|].
  rewrite mbind_run, save_to_csv_run by discriminate. reflexivity.
Qed.

End Cycles.

End CycleFacts.
Import CycleFacts.

(** X14. A cycle on a page that is ready returns without error.  The
    records kept from the rows taken are the ones that go to the file,
    under one stamp, and the ones the snapshot table shows; with no
    record kept (in particular with [topn] zero, or a table without rows)
    the cycle prints the notice of a cycle without data and persists
    nothing. *)
Theorem ready_cycle (sorter : Sorter) (a : args) (pg : page)
    (rows : list row_dom) (w : world) :
  ready pg -> rows_r pg = Ok rows ->
  let taken := slice_to rows (topn a) in
  Forall contained taken ->
  let w1 := log w (ready_events (timeout a) ++ rows_trace 0 taken) in
  let w' := fst (cycle_body a pg w) in
  snd (cycle_body a pg w) = Ok tt
  /\ (kept taken = [] -> w' = log w1 [Print MsgNoData])
  /\ (kept taken <> [] ->
      fs w' = <[output a := appended (fs w !! output a) (kept taken)
                              (IsoUtc (clock w (reads w)))]> (fs w)
      /\ reads w' = S (reads w)
      /\ exists views,
           trace w'
           = trace w1
             ++ Print MsgSnapshotTitle
                :: Print (MsgTable snapshot_columns (kept taken)) :: views)
  /\ ((topn a = 0)%Z \/ rows = [] -> kept taken = []).
Proof.
  intros Hrdy Hr taken Hc w1 w'. subst w'.
  rewrite (cycle_body_ready a pg rows w Hrdy Hr Hc). cbv zeta.
  fold taken. fold w1.
  split; [|split; [|split]].
  - destruct (kept taken); [reflexivity|]. now rewrite render_views_run.
  - now intros ->.
  - intros Hk. destruct (kept taken) as [|r recs] eqn:E; [congruence|].
    rewrite render_views_run. cbn [fst]. repeat split.
    eexists. unfold log at 1. cbn [trace saved snapshot_events app].
    reflexivity.
  - apply kept_nil_cases.
Qed.

Lemma ready_cycle_witness :
  snd (@cycle_body stable_sorter sample_args sample_page sample_world) = Ok tt
  /\ fs (fst (@cycle_body stable_sorter sample_args sample_page sample_world))
       !! sample_path
     = Some (Header csv_columns
             :: rows_of sample_records (IsoUtc (clock sample_world 0))).
Proof.
  destruct (ready_cycle stable_sorter sample_args sample_page sample_rows
              sample_world (conj eq_refl (conj eq_refl (conj eq_refl eq_refl)))
              eq_refl sample_page_contained) as (H1 & _ & H2 & _).
  split; [exact H1|].
  destruct H2 as (H2 & _); [vm_compute; discriminate|].
  rewrite H2. vm_compute. reflexivity.
Defined.

(** X15. How a run of the loop can end.  The loop is left by [break]
    only when the sleep of some cycle raised [KeyboardInterrupt].  An
    [Exception] leaves the loop only from the sleep: it is the
    [ValueError] of a negative interval, or what the sleep of some cycle
    raised; an [Exception] raised inside the body of a cycle never leaves
    the loop.  When the loop is still running after cycles were given,
    the interval is not negative and every sleep returned. *)
Theorem loop_exits (sorter : Sorter) (a : args) (cycles : list cycle)
    (w : world) :
  match snd (loop a cycles w) with
  | Ok Running =>
      cycles = []
      \/ ((0 <= interval a)%Z /\ Forall (fun c => sleep_r c = Ok tt) cycles)
  | Ok Finished =>
      (0 <= interval a)%Z
      /\ exists c e, In c cycles /\ sleep_r c = Raise e
                     /\ isinstance e KeyboardInterrupt = true
  | Raise e =>
      isinstance e Exception = true ->
      ((interval a < 0)%Z
       /\ e = mk_exn ValueError (py "sleep length must be non-negative"))
      \/ (exists c, In c cycles /\ sleep_r c = Raise e
                    /\ isinstance e KeyboardInterrupt = false)
  end.
Proof.
  revert w. induction cycles as [|c rest IH]; intros w; [now left|].
  destruct (cycle_body a (cycle_page c) w) as [w1 r] eqn:Hb.
  assert (Hcases : caught r
                   \/ exists e, r = Raise e /\ isinstance e Exception = false).
  { destruct r as [[]|e]; [left; intros e [=]|].
    destruct (isinstance e Exception) eqn:He.
    - left. now intros e' [= <-].
    - right. now exists e. }
  destruct Hcases as [Hc | (e & -> & He)].
  2:{ rewrite (loop_escape a c rest w w1 e Hb He). cbn [snd]. congruence. }
  rewrite (loop_caught a c rest w w1 r Hb Hc).
  set (w2 := log w1 _).
  destruct (Z.lt_ge_cases (interval a) 0) as [Hi|Hi].
  { rewrite (idle_negative a c rest w2 Hi). cbn [snd]. intros _. now left. }
  destruct (sleep_r c) as [[]|e] eqn:Hs.
  - rewrite (idle_sleeps a c rest w2 Hi Hs).
    specialize (IH (log w2 [Sleep (interval a)])).
    destruct (snd (loop a rest (log w2 [Sleep (interval a)]))) as [[]|e].
    + right. split; [exact Hi|]. constructor; [exact Hs|].
      destruct IH as [-> | [_ H]]; [constructor|exact H].
    + destruct IH as (H0 & c' & e & Hin & H). split; [exact H0|].
      exists c', e. split; [now right|exact H].
    + intros He. destruct (IH He) as [H | (c' & Hin & H)]; [now left|].
      right. exists c'. split; [now right|exact H].
  - destruct (isinstance e KeyboardInterrupt) eqn:He.
    + rewrite (idle_interrupted a c rest w2 e Hi Hs He). cbn [snd].
      split; [exact Hi|]. exists c, e. repeat split; try assumption. now left.
    + rewrite (idle_raises a c rest w2 e Hi Hs He). cbn [snd]. intros _.
      right. exists c. repeat split; try assumption. now left.
Qed.

(** X16. A run in which every cycle times out (the screenshot is taken,
    the sleep returns) stays in the loop, in any number of cycles,
    without an error; no file is written or created and the clock is
    never read. *)
Theorem degraded_run (sorter : Sorter) (a : args) (cycles : list cycle)
    (w : world) :
  (0 <= interval a)%Z -> Forall degraded cycles ->
  snd (loop a cycles w) = Ok Running
  /\ fs (fst (loop a cycles w)) = fs w
  /\ reads (fst (loop a cycles w)) = reads w.
Proof.
  intros Hi Hd. revert w.
  induction Hd as [|c rest (Ht & (b & Hs) & Hz) _ IH]; intros w;
    [repeat split|].
  pose proof (scrape_timeout_run _ (topn a) (timeout a) w b Ht Hs) as Hscr.
  pose proof (cycle_body_empty a _ w _ Hscr) as Hb.
  rewrite (loop_caught a c rest w _ _ Hb) by (intros e [=]).
  rewrite (idle_sleeps a c rest _ Hi Hz).
  destruct (IH (log (log (log (log w (timeout_events (cycle_page c)
                                        (timeout a)))
                            [Print MsgNoData])
                       (err_events (Ok tt)
                        ++ [Print (MsgWaiting (interval a))]))
                  [Sleep (interval a)]))
    as (H1 & H2 & H3).
  rewrite H1, H2, H3. repeat split.
Qed.

Lemma degraded_run_witness :
  snd (@loop stable_sorter sample_args [slow_cycle; slow_cycle] sample_world)
  = Ok Running
  /\ fs (fst (@loop stable_sorter sample_args [slow_cycle; slow_cycle]
                sample_world)) = fs sample_world
  /\ reads (fst (@loop stable_sorter sample_args [slow_cycle; slow_cycle]
                   sample_world)) = reads sample_world.
Proof.
  apply (degraded_run stable_sorter sample_args [slow_cycle; slow_cycle]
           sample_world).
  - vm_compute. discriminate.
  - repeat constructor; try exact slow_page_timed_out;
      try (exists true; reflexivity).
Defined.

(** X17. When Chrome has started and the first load of the page raises,
    [build_driver] raises before the handle is bound: [main] never enters
    the loop, prints the error when it is a [WebDriverException] and lets
    it through otherwise, and in neither case calls [driver.quit()], so
    the browser that was started stays open. *)
Theorem first_load_failure (sorter : Sorter) (a : args) (ss : session)
    (cycles : list cycle) (w : world) (e : exn) :
  install_r ss = Ok tt -> chrome_r ss = Ok tt -> get_r ss = Raise e ->
  let started :=
    [InstallDriver;
     StartChrome (chrome_arguments (headless a) (py "1920,1080"));
     Get home_url] in
  main a ss cycles w
  = if isinstance e WebDriverException
    then (log w (started ++ [Print (MsgWebDriverError e)]), Ok Finished)
    else (log w started, Raise e).
Proof.
  intros Hi Hc Hg started.
  assert (Hb : build_driver ss (headless a) w = (log w started, Raise e)).
  { unfold build_driver. step. rewrite Hi. step. rewrite Hc. step.
    rewrite Hg. reflexivity. }
  rewrite (main_not_acquired a ss cycles w _ e Hb).
  destruct (isinstance e WebDriverException); [|reflexivity].
  now rewrite log_log.
Qed.

Lemma first_load_failure_witness :
  @main stable_sorter sample_args session_without_network [sample_cycle]
    sample_world
  = (log sample_world
       ([InstallDriver;
         StartChrome (chrome_arguments true (py "1920,1080"));
         Get home_url] ++ [Print (MsgWebDriverError no_network)]),
     Ok Finished).
Proof.
  exact (first_load_failure stable_sorter sample_args session_without_network
           [sample_cycle] sample_world no_network eq_refl eq_refl eq_refl).
Defined.
